(** * The HackTown event scraper ([scrape_hacktown.py]), modelled and verified

    The development follows the source file top to bottom: the Python values
    the scraper handles, the environment profile, the location classifier
    with its cache, the page fetcher with its retry loop, the pagination
    coordinator, the orchestrator with its semaphore, record normalisation and
    the summary written by [main].  Definitions come first, theorems after. *)

From Stdlib Require Import ZArith NArith QArith Qminmax Qround Qpower Floats.
From Stdlib Require Import String Ascii List Lia Lqa Permutation.
From stdpp Require Import base option list gmap.

Set Warnings "-register-all".

(* ===================================================================== *)
(** * Part I: definitions *)
(* ===================================================================== *)

(** ** Python strings

    A Python [str] is a sequence of Unicode code points.  String literals of
    the source are written as UTF-8 text and decoded by [u]. *)

Abbreviation pystr := (list N).

Fixpoint utf8_decode (bs : list N) : pystr :=
  match bs with
  | [] => []
  | b :: rest =>
      if (b <? 128)%N then b :: utf8_decode rest
      else if (b <? 224)%N then
        match rest with
        | c1 :: rest' => ((b - 192) * 64 + (c1 - 128))%N :: utf8_decode rest'
        | _ => []
        end
      else if (b <? 240)%N then
        match rest with
        | c1 :: c2 :: rest' =>
            (((b - 224) * 64 + (c1 - 128)) * 64 + (c2 - 128))%N
              :: utf8_decode rest'
        | _ => []
        end
      else
        match rest with
        | c1 :: c2 :: c3 :: rest' =>
            ((((b - 240) * 64 + (c1 - 128)) * 64 + (c2 - 128)) * 64
               + (c3 - 128))%N :: utf8_decode rest'
        | _ => []
        end
  end.

Definition u (s : string) : pystr :=
  utf8_decode (N_of_ascii <$> list_ascii_of_string s).
Arguments u s%_string : simpl never.

(** [str.upper] maps each code point by itself, to one, two or three code
    points.  Basic Latin and the Latin-1 Supplement (U+0000..U+00FF), the
    range in which every rule of the classifier is written, are given by
    rule; above U+00FF the code points that [str.upper] changes are listed
    with what they become, as the Unicode character database has them
    (version 14.0, the one of Python 3.11). *)

Fixpoint table_lookup (c : N) (table : list (N * pystr)) : option pystr :=
  match table with
  | [] => None
  | (c', out) :: rest => if (c' =? c)%N then Some out else table_lookup c rest
  end.

Local Open Scope N_scope.
Definition unicode_upper : list (N * pystr) :=
  [
    (257, [256]); (259, [258]); (261, [260]); (263, [262]); (265, [264]);
    (267, [266]); (269, [268]); (271, [270]); (273, [272]); (275, [274]);
    (277, [276]); (279, [278]); (281, [280]); (283, [282]); (285, [284]);
    (287, [286]); (289, [288]); (291, [290]); (293, [292]); (295, [294]);
    (297, [296]); (299, [298]); (301, [300]); (303, [302]); (305, [73]);
    (307, [306]); (309, [308]); (311, [310]); (314, [313]); (316, [315]);
    (318, [317]); (320, [319]); (322, [321]); (324, [323]); (326, [325]);
    (328, [327]); (329, [700; 78]); (331, [330]); (333, [332]); (335, [334]);
    (337, [336]); (339, [338]); (341, [340]); (343, [342]); (345, [344]);
    (347, [346]); (349, [348]); (351, [350]); (353, [352]); (355, [354]);
    (357, [356]); (359, [358]); (361, [360]); (363, [362]); (365, [364]);
    (367, [366]); (369, [368]); (371, [370]); (373, [372]); (375, [374]);
    (378, [377]); (380, [379]); (382, [381]); (383, [83]); (384, [579]);
    (387, [386]); (389, [388]); (392, [391]); (396, [395]); (402, [401]);
    (405, [502]); (409, [408]); (410, [573]); (414, [544]); (417, [416]);
    (419, [418]); (421, [420]); (424, [423]); (429, [428]); (432, [431]);
    (436, [435]); (438, [437]); (441, [440]); (445, [444]); (447, [503]);
    (453, [452]); (454, [452]); (456, [455]); (457, [455]); (459, [458]);
    (460, [458]); (462, [461]); (464, [463]); (466, [465]); (468, [467]);
    (470, [469]); (472, [471]); (474, [473]); (476, [475]); (477, [398]);
    (479, [478]); (481, [480]); (483, [482]); (485, [484]); (487, [486]);
    (489, [488]); (491, [490]); (493, [492]); (495, [494]); (496, [74; 780]);
    (498, [497]); (499, [497]); (501, [500]); (505, [504]); (507, [506]);
    (509, [508]); (511, [510]); (513, [512]); (515, [514]); (517, [516]);
    (519, [518]); (521, [520]); (523, [522]); (525, [524]); (527, [526]);
    (529, [528]); (531, [530]); (533, [532]); (535, [534]); (537, [536]);
    (539, [538]); (541, [540]); (543, [542]); (547, [546]); (549, [548]);
    (551, [550]); (553, [552]); (555, [554]); (557, [556]); (559, [558]);
    (561, [560]); (563, [562]); (572, [571]); (575, [11390]); (576, [11391]);
    (578, [577]); (583, [582]); (585, [584]); (587, [586]); (589, [588]);
    (591, [590]); (592, [11375]); (593, [11373]); (594, [11376]);
    (595, [385]); (596, [390]); (598, [393]); (599, [394]); (601, [399]);
    (603, [400]); (604, [42923]); (608, [403]); (609, [42924]); (611, [404]);
    (613, [42893]); (614, [42922]); (616, [407]); (617, [406]);
    (618, [42926]); (619, [11362]); (620, [42925]); (623, [412]);
    (625, [11374]); (626, [413]); (629, [415]); (637, [11364]); (640, [422]);
    (642, [42949]); (643, [425]); (647, [42929]); (648, [430]); (649, [580]);
    (650, [433]); (651, [434]); (652, [581]); (658, [439]); (669, [42930]);
    (670, [42928]); (837, [921]); (881, [880]); (883, [882]); (887, [886]);
    (891, [1021]); (892, [1022]); (893, [1023]); (912, [921; 776; 769]);
    (940, [902]); (941, [904]); (942, [905]); (943, [906]);
    (944, [933; 776; 769]); (945, [913]); (946, [914]); (947, [915]);
    (948, [916]); (949, [917]); (950, [918]); (951, [919]); (952, [920]);
    (953, [921]); (954, [922]); (955, [923]); (956, [924]); (957, [925]);
    (958, [926]); (959, [927]); (960, [928]); (961, [929]); (962, [931]);
    (963, [931]); (964, [932]); (965, [933]); (966, [934]); (967, [935]);
    (968, [936]); (969, [937]); (970, [938]); (971, [939]); (972, [908]);
    (973, [910]); (974, [911]); (976, [914]); (977, [920]); (981, [934]);
    (982, [928]); (983, [975]); (985, [984]); (987, [986]); (989, [988]);
    (991, [990]); (993, [992]); (995, [994]); (997, [996]); (999, [998]);
    (1001, [1000]); (1003, [1002]); (1005, [1004]); (1007, [1006]);
    (1008, [922]); (1009, [929]); (1010, [1017]); (1011, [895]);
    (1013, [917]); (1016, [1015]); (1019, [1018]); (1072, [1040]);
    (1073, [1041]); (1074, [1042]); (1075, [1043]); (1076, [1044]);
    (1077, [1045]); (1078, [1046]); (1079, [1047]); (1080, [1048]);
    (1081, [1049]); (1082, [1050]); (1083, [1051]); (1084, [1052]);
    (1085, [1053]); (1086, [1054]); (1087, [1055]); (1088, [1056]);
    (1089, [1057]); (1090, [1058]); (1091, [1059]); (1092, [1060]);
    (1093, [1061]); (1094, [1062]); (1095, [1063]); (1096, [1064]);
    (1097, [1065]); (1098, [1066]); (1099, [1067]); (1100, [1068]);
    (1101, [1069]); (1102, [1070]); (1103, [1071]); (1104, [1024]);
    (1105, [1025]); (1106, [1026]); (1107, [1027]); (1108, [1028]);
    (1109, [1029]); (1110, [1030]); (1111, [1031]); (1112, [1032]);
    (1113, [1033]); (1114, [1034]); (1115, [1035]); (1116, [1036]);
    (1117, [1037]); (1118, [1038]); (1119, [1039]); (1121, [1120]);
    (1123, [1122]); (1125, [1124]); (1127, [1126]); (1129, [1128]);
    (1131, [1130]); (1133, [1132]); (1135, [1134]); (1137, [1136]);
    (1139, [1138]); (1141, [1140]); (1143, [1142]); (1145, [1144]);
    (1147, [1146]); (1149, [1148]); (1151, [1150]); (1153, [1152]);
    (1163, [1162]); (1165, [1164]); (1167, [1166]); (1169, [1168]);
    (1171, [1170]); (1173, [1172]); (1175, [1174]); (1177, [1176]);
    (1179, [1178]); (1181, [1180]); (1183, [1182]); (1185, [1184]);
    (1187, [1186]); (1189, [1188]); (1191, [1190]); (1193, [1192]);
    (1195, [1194]); (1197, [1196]); (1199, [1198]); (1201, [1200]);
    (1203, [1202]); (1205, [1204]); (1207, [1206]); (1209, [1208]);
    (1211, [1210]); (1213, [1212]); (1215, [1214]); (1218, [1217]);
    (1220, [1219]); (1222, [1221]); (1224, [1223]); (1226, [1225]);
    (1228, [1227]); (1230, [1229]); (1231, [1216]); (1233, [1232]);
    (1235, [1234]); (1237, [1236]); (1239, [1238]); (1241, [1240]);
    (1243, [1242]); (1245, [1244]); (1247, [1246]); (1249, [1248]);
    (1251, [1250]); (1253, [1252]); (1255, [1254]); (1257, [1256]);
    (1259, [1258]); (1261, [1260]); (1263, [1262]); (1265, [1264]);
    (1267, [1266]); (1269, [1268]); (1271, [1270]); (1273, [1272]);
    (1275, [1274]); (1277, [1276]); (1279, [1278]); (1281, [1280]);
    (1283, [1282]); (1285, [1284]); (1287, [1286]); (1289, [1288]);
    (1291, [1290]); (1293, [1292]); (1295, [1294]); (1297, [1296]);
    (1299, [1298]); (1301, [1300]); (1303, [1302]); (1305, [1304]);
    (1307, [1306]); (1309, [1308]); (1311, [1310]); (1313, [1312]);
    (1315, [1314]); (1317, [1316]); (1319, [1318]); (1321, [1320]);
    (1323, [1322]); (1325, [1324]); (1327, [1326]); (1377, [1329]);
    (1378, [1330]); (1379, [1331]); (1380, [1332]); (1381, [1333]);
    (1382, [1334]); (1383, [1335]); (1384, [1336]); (1385, [1337]);
    (1386, [1338]); (1387, [1339]); (1388, [1340]); (1389, [1341]);
    (1390, [1342]); (1391, [1343]); (1392, [1344]); (1393, [1345]);
    (1394, [1346]); (1395, [1347]); (1396, [1348]); (1397, [1349]);
    (1398, [1350]); (1399, [1351]); (1400, [1352]); (1401, [1353]);
    (1402, [1354]); (1403, [1355]); (1404, [1356]); (1405, [1357]);
    (1406, [1358]); (1407, [1359]); (1408, [1360]); (1409, [1361]);
    (1410, [1362]); (1411, [1363]); (1412, [1364]); (1413, [1365]);
    (1414, [1366]); (1415, [1333; 1362]); (4304, [7312]); (4305, [7313]);
    (4306, [7314]); (4307, [7315]); (4308, [7316]); (4309, [7317]);
    (4310, [7318]); (4311, [7319]); (4312, [7320]); (4313, [7321]);
    (4314, [7322]); (4315, [7323]); (4316, [7324]); (4317, [7325]);
    (4318, [7326]); (4319, [7327]); (4320, [7328]); (4321, [7329]);
    (4322, [7330]); (4323, [7331]); (4324, [7332]); (4325, [7333]);
    (4326, [7334]); (4327, [7335]); (4328, [7336]); (4329, [7337]);
    (4330, [7338]); (4331, [7339]); (4332, [7340]); (4333, [7341]);
    (4334, [7342]); (4335, [7343]); (4336, [7344]); (4337, [7345]);
    (4338, [7346]); (4339, [7347]); (4340, [7348]); (4341, [7349]);
    (4342, [7350]); (4343, [7351]); (4344, [7352]); (4345, [7353]);
    (4346, [7354]); (4349, [7357]); (4350, [7358]); (4351, [7359]);
    (5112, [5104]); (5113, [5105]); (5114, [5106]); (5115, [5107]);
    (5116, [5108]); (5117, [5109]); (7296, [1042]); (7297, [1044]);
    (7298, [1054]); (7299, [1057]); (7300, [1058]); (7301, [1058]);
    (7302, [1066]); (7303, [1122]); (7304, [42570]); (7545, [42877]);
    (7549, [11363]); (7566, [42950]); (7681, [7680]); (7683, [7682]);
    (7685, [7684]); (7687, [7686]); (7689, [7688]); (7691, [7690]);
    (7693, [7692]); (7695, [7694]); (7697, [7696]); (7699, [7698]);
    (7701, [7700]); (7703, [7702]); (7705, [7704]); (7707, [7706]);
    (7709, [7708]); (7711, [7710]); (7713, [7712]); (7715, [7714]);
    (7717, [7716]); (7719, [7718]); (7721, [7720]); (7723, [7722]);
    (7725, [7724]); (7727, [7726]); (7729, [7728]); (7731, [7730]);
    (7733, [7732]); (7735, [7734]); (7737, [7736]); (7739, [7738]);
    (7741, [7740]); (7743, [7742]); (7745, [7744]); (7747, [7746]);
    (7749, [7748]); (7751, [7750]); (7753, [7752]); (7755, [7754]);
    (7757, [7756]); (7759, [7758]); (7761, [7760]); (7763, [7762]);
    (7765, [7764]); (7767, [7766]); (7769, [7768]); (7771, [7770]);
    (7773, [7772]); (7775, [7774]); (7777, [7776]); (7779, [7778]);
    (7781, [7780]); (7783, [7782]); (7785, [7784]); (7787, [7786]);
    (7789, [7788]); (7791, [7790]); (7793, [7792]); (7795, [7794]);
    (7797, [7796]); (7799, [7798]); (7801, [7800]); (7803, [7802]);
    (7805, [7804]); (7807, [7806]); (7809, [7808]); (7811, [7810]);
    (7813, [7812]); (7815, [7814]); (7817, [7816]); (7819, [7818]);
    (7821, [7820]); (7823, [7822]); (7825, [7824]); (7827, [7826]);
    (7829, [7828]); (7830, [72; 817]); (7831, [84; 776]); (7832, [87; 778]);
    (7833, [89; 778]); (7834, [65; 702]); (7835, [7776]); (7841, [7840]);
    (7843, [7842]); (7845, [7844]); (7847, [7846]); (7849, [7848]);
    (7851, [7850]); (7853, [7852]); (7855, [7854]); (7857, [7856]);
    (7859, [7858]); (7861, [7860]); (7863, [7862]); (7865, [7864]);
    (7867, [7866]); (7869, [7868]); (7871, [7870]); (7873, [7872]);
    (7875, [7874]); (7877, [7876]); (7879, [7878]); (7881, [7880]);
    (7883, [7882]); (7885, [7884]); (7887, [7886]); (7889, [7888]);
    (7891, [7890]); (7893, [7892]); (7895, [7894]); (7897, [7896]);
    (7899, [7898]); (7901, [7900]); (7903, [7902]); (7905, [7904]);
    (7907, [7906]); (7909, [7908]); (7911, [7910]); (7913, [7912]);
    (7915, [7914]); (7917, [7916]); (7919, [7918]); (7921, [7920]);
    (7923, [7922]); (7925, [7924]); (7927, [7926]); (7929, [7928]);
    (7931, [7930]); (7933, [7932]); (7935, [7934]); (7936, [7944]);
    (7937, [7945]); (7938, [7946]); (7939, [7947]); (7940, [7948]);
    (7941, [7949]); (7942, [7950]); (7943, [7951]); (7952, [7960]);
    (7953, [7961]); (7954, [7962]); (7955, [7963]); (7956, [7964]);
    (7957, [7965]); (7968, [7976]); (7969, [7977]); (7970, [7978]);
    (7971, [7979]); (7972, [7980]); (7973, [7981]); (7974, [7982]);
    (7975, [7983]); (7984, [7992]); (7985, [7993]); (7986, [7994]);
    (7987, [7995]); (7988, [7996]); (7989, [7997]); (7990, [7998]);
    (7991, [7999]); (8000, [8008]); (8001, [8009]); (8002, [8010]);
    (8003, [8011]); (8004, [8012]); (8005, [8013]); (8016, [933; 787]);
    (8017, [8025]); (8018, [933; 787; 768]); (8019, [8027]);
    (8020, [933; 787; 769]); (8021, [8029]); (8022, [933; 787; 834]);
    (8023, [8031]); (8032, [8040]); (8033, [8041]); (8034, [8042]);
    (8035, [8043]); (8036, [8044]); (8037, [8045]); (8038, [8046]);
    (8039, [8047]); (8048, [8122]); (8049, [8123]); (8050, [8136]);
    (8051, [8137]); (8052, [8138]); (8053, [8139]); (8054, [8154]);
    (8055, [8155]); (8056, [8184]); (8057, [8185]); (8058, [8170]);
    (8059, [8171]); (8060, [8186]); (8061, [8187]); (8064, [7944; 921]);
    (8065, [7945; 921]); (8066, [7946; 921]); (8067, [7947; 921]);
    (8068, [7948; 921]); (8069, [7949; 921]); (8070, [7950; 921]);
    (8071, [7951; 921]); (8072, [7944; 921]); (8073, [7945; 921]);
    (8074, [7946; 921]); (8075, [7947; 921]); (8076, [7948; 921]);
    (8077, [7949; 921]); (8078, [7950; 921]); (8079, [7951; 921]);
    (8080, [7976; 921]); (8081, [7977; 921]); (8082, [7978; 921]);
    (8083, [7979; 921]); (8084, [7980; 921]); (8085, [7981; 921]);
    (8086, [7982; 921]); (8087, [7983; 921]); (8088, [7976; 921]);
    (8089, [7977; 921]); (8090, [7978; 921]); (8091, [7979; 921]);
    (8092, [7980; 921]); (8093, [7981; 921]); (8094, [7982; 921]);
    (8095, [7983; 921]); (8096, [8040; 921]); (8097, [8041; 921]);
    (8098, [8042; 921]); (8099, [8043; 921]); (8100, [8044; 921]);
    (8101, [8045; 921]); (8102, [8046; 921]); (8103, [8047; 921]);
    (8104, [8040; 921]); (8105, [8041; 921]); (8106, [8042; 921]);
    (8107, [8043; 921]); (8108, [8044; 921]); (8109, [8045; 921]);
    (8110, [8046; 921]); (8111, [8047; 921]); (8112, [8120]); (8113, [8121]);
    (8114, [8122; 921]); (8115, [913; 921]); (8116, [902; 921]);
    (8118, [913; 834]); (8119, [913; 834; 921]); (8124, [913; 921]);
    (8126, [921]); (8130, [8138; 921]); (8131, [919; 921]);
    (8132, [905; 921]); (8134, [919; 834]); (8135, [919; 834; 921]);
    (8140, [919; 921]); (8144, [8152]); (8145, [8153]);
    (8146, [921; 776; 768]); (8147, [921; 776; 769]); (8150, [921; 834]);
    (8151, [921; 776; 834]); (8160, [8168]); (8161, [8169]);
    (8162, [933; 776; 768]); (8163, [933; 776; 769]); (8164, [929; 787]);
    (8165, [8172]); (8166, [933; 834]); (8167, [933; 776; 834]);
    (8178, [8186; 921]); (8179, [937; 921]); (8180, [911; 921]);
    (8182, [937; 834]); (8183, [937; 834; 921]); (8188, [937; 921]);
    (8526, [8498]); (8560, [8544]); (8561, [8545]); (8562, [8546]);
    (8563, [8547]); (8564, [8548]); (8565, [8549]); (8566, [8550]);
    (8567, [8551]); (8568, [8552]); (8569, [8553]); (8570, [8554]);
    (8571, [8555]); (8572, [8556]); (8573, [8557]); (8574, [8558]);
    (8575, [8559]); (8580, [8579]); (9424, [9398]); (9425, [9399]);
    (9426, [9400]); (9427, [9401]); (9428, [9402]); (9429, [9403]);
    (9430, [9404]); (9431, [9405]); (9432, [9406]); (9433, [9407]);
    (9434, [9408]); (9435, [9409]); (9436, [9410]); (9437, [9411]);
    (9438, [9412]); (9439, [9413]); (9440, [9414]); (9441, [9415]);
    (9442, [9416]); (9443, [9417]); (9444, [9418]); (9445, [9419]);
    (9446, [9420]); (9447, [9421]); (9448, [9422]); (9449, [9423]);
    (11312, [11264]); (11313, [11265]); (11314, [11266]); (11315, [11267]);
    (11316, [11268]); (11317, [11269]); (11318, [11270]); (11319, [11271]);
    (11320, [11272]); (11321, [11273]); (11322, [11274]); (11323, [11275]);
    (11324, [11276]); (11325, [11277]); (11326, [11278]); (11327, [11279]);
    (11328, [11280]); (11329, [11281]); (11330, [11282]); (11331, [11283]);
    (11332, [11284]); (11333, [11285]); (11334, [11286]); (11335, [11287]);
    (11336, [11288]); (11337, [11289]); (11338, [11290]); (11339, [11291]);
    (11340, [11292]); (11341, [11293]); (11342, [11294]); (11343, [11295]);
    (11344, [11296]); (11345, [11297]); (11346, [11298]); (11347, [11299]);
    (11348, [11300]); (11349, [11301]); (11350, [11302]); (11351, [11303]);
    (11352, [11304]); (11353, [11305]); (11354, [11306]); (11355, [11307]);
    (11356, [11308]); (11357, [11309]); (11358, [11310]); (11359, [11311]);
    (11361, [11360]); (11365, [570]); (11366, [574]); (11368, [11367]);
    (11370, [11369]); (11372, [11371]); (11379, [11378]); (11382, [11381]);
    (11393, [11392]); (11395, [11394]); (11397, [11396]); (11399, [11398]);
    (11401, [11400]); (11403, [11402]); (11405, [11404]); (11407, [11406]);
    (11409, [11408]); (11411, [11410]); (11413, [11412]); (11415, [11414]);
    (11417, [11416]); (11419, [11418]); (11421, [11420]); (11423, [11422]);
    (11425, [11424]); (11427, [11426]); (11429, [11428]); (11431, [11430]);
    (11433, [11432]); (11435, [11434]); (11437, [11436]); (11439, [11438]);
    (11441, [11440]); (11443, [11442]); (11445, [11444]); (11447, [11446]);
    (11449, [11448]); (11451, [11450]); (11453, [11452]); (11455, [11454]);
    (11457, [11456]); (11459, [11458]); (11461, [11460]); (11463, [11462]);
    (11465, [11464]); (11467, [11466]); (11469, [11468]); (11471, [11470]);
    (11473, [11472]); (11475, [11474]); (11477, [11476]); (11479, [11478]);
    (11481, [11480]); (11483, [11482]); (11485, [11484]); (11487, [11486]);
    (11489, [11488]); (11491, [11490]); (11500, [11499]); (11502, [11501]);
    (11507, [11506]); (11520, [4256]); (11521, [4257]); (11522, [4258]);
    (11523, [4259]); (11524, [4260]); (11525, [4261]); (11526, [4262]);
    (11527, [4263]); (11528, [4264]); (11529, [4265]); (11530, [4266]);
    (11531, [4267]); (11532, [4268]); (11533, [4269]); (11534, [4270]);
    (11535, [4271]); (11536, [4272]); (11537, [4273]); (11538, [4274]);
    (11539, [4275]); (11540, [4276]); (11541, [4277]); (11542, [4278]);
    (11543, [4279]); (11544, [4280]); (11545, [4281]); (11546, [4282]);
    (11547, [4283]); (11548, [4284]); (11549, [4285]); (11550, [4286]);
    (11551, [4287]); (11552, [4288]); (11553, [4289]); (11554, [4290]);
    (11555, [4291]); (11556, [4292]); (11557, [4293]); (11559, [4295]);
    (11565, [4301]); (42561, [42560]); (42563, [42562]); (42565, [42564]);
    (42567, [42566]); (42569, [42568]); (42571, [42570]); (42573, [42572]);
    (42575, [42574]); (42577, [42576]); (42579, [42578]); (42581, [42580]);
    (42583, [42582]); (42585, [42584]); (42587, [42586]); (42589, [42588]);
    (42591, [42590]); (42593, [42592]); (42595, [42594]); (42597, [42596]);
    (42599, [42598]); (42601, [42600]); (42603, [42602]); (42605, [42604]);
    (42625, [42624]); (42627, [42626]); (42629, [42628]); (42631, [42630]);
    (42633, [42632]); (42635, [42634]); (42637, [42636]); (42639, [42638]);
    (42641, [42640]); (42643, [42642]); (42645, [42644]); (42647, [42646]);
    (42649, [42648]); (42651, [42650]); (42787, [42786]); (42789, [42788]);
    (42791, [42790]); (42793, [42792]); (42795, [42794]); (42797, [42796]);
    (42799, [42798]); (42803, [42802]); (42805, [42804]); (42807, [42806]);
    (42809, [42808]); (42811, [42810]); (42813, [42812]); (42815, [42814]);
    (42817, [42816]); (42819, [42818]); (42821, [42820]); (42823, [42822]);
    (42825, [42824]); (42827, [42826]); (42829, [42828]); (42831, [42830]);
    (42833, [42832]); (42835, [42834]); (42837, [42836]); (42839, [42838]);
    (42841, [42840]); (42843, [42842]); (42845, [42844]); (42847, [42846]);
    (42849, [42848]); (42851, [42850]); (42853, [42852]); (42855, [42854]);
    (42857, [42856]); (42859, [42858]); (42861, [42860]); (42863, [42862]);
    (42874, [42873]); (42876, [42875]); (42879, [42878]); (42881, [42880]);
    (42883, [42882]); (42885, [42884]); (42887, [42886]); (42892, [42891]);
    (42897, [42896]); (42899, [42898]); (42900, [42948]); (42903, [42902]);
    (42905, [42904]); (42907, [42906]); (42909, [42908]); (42911, [42910]);
    (42913, [42912]); (42915, [42914]); (42917, [42916]); (42919, [42918]);
    (42921, [42920]); (42933, [42932]); (42935, [42934]); (42937, [42936]);
    (42939, [42938]); (42941, [42940]); (42943, [42942]); (42945, [42944]);
    (42947, [42946]); (42952, [42951]); (42954, [42953]); (42961, [42960]);
    (42967, [42966]); (42969, [42968]); (42998, [42997]); (43859, [42931]);
    (43888, [5024]); (43889, [5025]); (43890, [5026]); (43891, [5027]);
    (43892, [5028]); (43893, [5029]); (43894, [5030]); (43895, [5031]);
    (43896, [5032]); (43897, [5033]); (43898, [5034]); (43899, [5035]);
    (43900, [5036]); (43901, [5037]); (43902, [5038]); (43903, [5039]);
    (43904, [5040]); (43905, [5041]); (43906, [5042]); (43907, [5043]);
    (43908, [5044]); (43909, [5045]); (43910, [5046]); (43911, [5047]);
    (43912, [5048]); (43913, [5049]); (43914, [5050]); (43915, [5051]);
    (43916, [5052]); (43917, [5053]); (43918, [5054]); (43919, [5055]);
    (43920, [5056]); (43921, [5057]); (43922, [5058]); (43923, [5059]);
    (43924, [5060]); (43925, [5061]); (43926, [5062]); (43927, [5063]);
    (43928, [5064]); (43929, [5065]); (43930, [5066]); (43931, [5067]);
    (43932, [5068]); (43933, [5069]); (43934, [5070]); (43935, [5071]);
    (43936, [5072]); (43937, [5073]); (43938, [5074]); (43939, [5075]);
    (43940, [5076]); (43941, [5077]); (43942, [5078]); (43943, [5079]);
    (43944, [5080]); (43945, [5081]); (43946, [5082]); (43947, [5083]);
    (43948, [5084]); (43949, [5085]); (43950, [5086]); (43951, [5087]);
    (43952, [5088]); (43953, [5089]); (43954, [5090]); (43955, [5091]);
    (43956, [5092]); (43957, [5093]); (43958, [5094]); (43959, [5095]);
    (43960, [5096]); (43961, [5097]); (43962, [5098]); (43963, [5099]);
    (43964, [5100]); (43965, [5101]); (43966, [5102]); (43967, [5103]);
    (64256, [70; 70]); (64257, [70; 73]); (64258, [70; 76]);
    (64259, [70; 70; 73]); (64260, [70; 70; 76]); (64261, [83; 84]);
    (64262, [83; 84]); (64275, [1348; 1350]); (64276, [1348; 1333]);
    (64277, [1348; 1339]); (64278, [1358; 1350]); (64279, [1348; 1341]);
    (65345, [65313]); (65346, [65314]); (65347, [65315]); (65348, [65316]);
    (65349, [65317]); (65350, [65318]); (65351, [65319]); (65352, [65320]);
    (65353, [65321]); (65354, [65322]); (65355, [65323]); (65356, [65324]);
    (65357, [65325]); (65358, [65326]); (65359, [65327]); (65360, [65328]);
    (65361, [65329]); (65362, [65330]); (65363, [65331]); (65364, [65332]);
    (65365, [65333]); (65366, [65334]); (65367, [65335]); (65368, [65336]);
    (65369, [65337]); (65370, [65338]); (66600, [66560]); (66601, [66561]);
    (66602, [66562]); (66603, [66563]); (66604, [66564]); (66605, [66565]);
    (66606, [66566]); (66607, [66567]); (66608, [66568]); (66609, [66569]);
    (66610, [66570]); (66611, [66571]); (66612, [66572]); (66613, [66573]);
    (66614, [66574]); (66615, [66575]); (66616, [66576]); (66617, [66577]);
    (66618, [66578]); (66619, [66579]); (66620, [66580]); (66621, [66581]);
    (66622, [66582]); (66623, [66583]); (66624, [66584]); (66625, [66585]);
    (66626, [66586]); (66627, [66587]); (66628, [66588]); (66629, [66589]);
    (66630, [66590]); (66631, [66591]); (66632, [66592]); (66633, [66593]);
    (66634, [66594]); (66635, [66595]); (66636, [66596]); (66637, [66597]);
    (66638, [66598]); (66639, [66599]); (66776, [66736]); (66777, [66737]);
    (66778, [66738]); (66779, [66739]); (66780, [66740]); (66781, [66741]);
    (66782, [66742]); (66783, [66743]); (66784, [66744]); (66785, [66745]);
    (66786, [66746]); (66787, [66747]); (66788, [66748]); (66789, [66749]);
    (66790, [66750]); (66791, [66751]); (66792, [66752]); (66793, [66753]);
    (66794, [66754]); (66795, [66755]); (66796, [66756]); (66797, [66757]);
    (66798, [66758]); (66799, [66759]); (66800, [66760]); (66801, [66761]);
    (66802, [66762]); (66803, [66763]); (66804, [66764]); (66805, [66765]);
    (66806, [66766]); (66807, [66767]); (66808, [66768]); (66809, [66769]);
    (66810, [66770]); (66811, [66771]); (66967, [66928]); (66968, [66929]);
    (66969, [66930]); (66970, [66931]); (66971, [66932]); (66972, [66933]);
    (66973, [66934]); (66974, [66935]); (66975, [66936]); (66976, [66937]);
    (66977, [66938]); (66979, [66940]); (66980, [66941]); (66981, [66942]);
    (66982, [66943]); (66983, [66944]); (66984, [66945]); (66985, [66946]);
    (66986, [66947]); (66987, [66948]); (66988, [66949]); (66989, [66950]);
    (66990, [66951]); (66991, [66952]); (66992, [66953]); (66993, [66954]);
    (66995, [66956]); (66996, [66957]); (66997, [66958]); (66998, [66959]);
    (66999, [66960]); (67000, [66961]); (67001, [66962]); (67003, [66964]);
    (67004, [66965]); (68800, [68736]); (68801, [68737]); (68802, [68738]);
    (68803, [68739]); (68804, [68740]); (68805, [68741]); (68806, [68742]);
    (68807, [68743]); (68808, [68744]); (68809, [68745]); (68810, [68746]);
    (68811, [68747]); (68812, [68748]); (68813, [68749]); (68814, [68750]);
    (68815, [68751]); (68816, [68752]); (68817, [68753]); (68818, [68754]);
    (68819, [68755]); (68820, [68756]); (68821, [68757]); (68822, [68758]);
    (68823, [68759]); (68824, [68760]); (68825, [68761]); (68826, [68762]);
    (68827, [68763]); (68828, [68764]); (68829, [68765]); (68830, [68766]);
    (68831, [68767]); (68832, [68768]); (68833, [68769]); (68834, [68770]);
    (68835, [68771]); (68836, [68772]); (68837, [68773]); (68838, [68774]);
    (68839, [68775]); (68840, [68776]); (68841, [68777]); (68842, [68778]);
    (68843, [68779]); (68844, [68780]); (68845, [68781]); (68846, [68782]);
    (68847, [68783]); (68848, [68784]); (68849, [68785]); (68850, [68786]);
    (71872, [71840]); (71873, [71841]); (71874, [71842]); (71875, [71843]);
    (71876, [71844]); (71877, [71845]); (71878, [71846]); (71879, [71847]);
    (71880, [71848]); (71881, [71849]); (71882, [71850]); (71883, [71851]);
    (71884, [71852]); (71885, [71853]); (71886, [71854]); (71887, [71855]);
    (71888, [71856]); (71889, [71857]); (71890, [71858]); (71891, [71859]);
    (71892, [71860]); (71893, [71861]); (71894, [71862]); (71895, [71863]);
    (71896, [71864]); (71897, [71865]); (71898, [71866]); (71899, [71867]);
    (71900, [71868]); (71901, [71869]); (71902, [71870]); (71903, [71871]);
    (93792, [93760]); (93793, [93761]); (93794, [93762]); (93795, [93763]);
    (93796, [93764]); (93797, [93765]); (93798, [93766]); (93799, [93767]);
    (93800, [93768]); (93801, [93769]); (93802, [93770]); (93803, [93771]);
    (93804, [93772]); (93805, [93773]); (93806, [93774]); (93807, [93775]);
    (93808, [93776]); (93809, [93777]); (93810, [93778]); (93811, [93779]);
    (93812, [93780]); (93813, [93781]); (93814, [93782]); (93815, [93783]);
    (93816, [93784]); (93817, [93785]); (93818, [93786]); (93819, [93787]);
    (93820, [93788]); (93821, [93789]); (93822, [93790]); (93823, [93791]);
    (125218, [125184]); (125219, [125185]); (125220, [125186]);
    (125221, [125187]); (125222, [125188]); (125223, [125189]);
    (125224, [125190]); (125225, [125191]); (125226, [125192]);
    (125227, [125193]); (125228, [125194]); (125229, [125195]);
    (125230, [125196]); (125231, [125197]); (125232, [125198]);
    (125233, [125199]); (125234, [125200]); (125235, [125201]);
    (125236, [125202]); (125237, [125203]); (125238, [125204]);
    (125239, [125205]); (125240, [125206]); (125241, [125207]);
    (125242, [125208]); (125243, [125209]); (125244, [125210]);
    (125245, [125211]); (125246, [125212]); (125247, [125213]);
    (125248, [125214]); (125249, [125215]); (125250, [125216]);
    (125251, [125217]) ].
Local Close Scope N_scope.

Definition upper_cp (c : N) : pystr :=
  if ((97 <=? c) && (c <=? 122))%N then [(c - 32)%N]          (* a-z *)
  else if (c =? 181)%N then [924%N]                             (* micro sign *)
  else if (c =? 223)%N then [83%N; 83%N]                        (* sharp s -> SS *)
  else if ((224 <=? c) && (c <=? 254) && negb (c =? 247))%N
       then [(c - 32)%N]                                        (* a-grave..thorn *)
  else if (c =? 255)%N then [376%N]                             (* y-diaeresis *)
  else default [c] (table_lookup c unicode_upper).

(** [str.lower], which only the specification uses, for the code points up
    to U+00FF; above, it is left as the identity, and the statements about
    it are restricted to [latin1] strings. *)


Definition upper (s : pystr) : pystr := s ≫= upper_cp.



(** [needle in haystack] on strings. *)
Fixpoint startswith (prefix s : pystr) : bool :=
  match prefix, s with
  | [], _ => true
  | p :: prefix', c :: s' => (p =? c)%N && startswith prefix' s'
  | _ :: _, [] => false
  end.

Fixpoint contains (needle haystack : pystr) : bool :=
  startswith needle haystack
  || match haystack with
     | [] => false
     | _ :: rest => contains needle rest
     end.

(** ** Python values

    The values [json.load] and [response.json()] produce.  A [dict] keeps its
    insertion order, so it is a list of items, looked up from the front. *)

Inductive pyval :=
| PNone
| PBool (b : bool)
| PInt (n : Z)
| PFloat (f : float)
| PStr (s : pystr)
| PList (l : list pyval)
| PDict (d : list (pystr * pyval)).

Abbreviation pydict := (list (pystr * pyval)).

(** Truth value testing ([if v:], [not v]). *)
Definition truthy (v : pyval) : bool :=
  match v with
  | PNone => false
  | PBool b => b
  | PInt n => negb (n =? 0)%Z
  | PFloat f => negb (PrimFloat.eqb f 0%float)
  | PStr s => negb (bool_decide (s = []))
  | PList [] => false
  | PList (_ :: _) => true
  | PDict [] => false
  | PDict (_ :: _) => true
  end.

(** Exceptions the modelled code can meet, and results that may raise. *)
Inductive exn :=
| TypeError
| AttributeError
| InvalidStateError
| UnicodeEncodeError
| CancelledError.

Inductive result (A : Type) :=
| Ok (a : A)
| Raise (e : exn).
Arguments Ok {A} a.
Arguments Raise {A} e.

#[global] Instance result_ret : MRet result := λ A a, Ok a.
#[global] Instance result_bind : MBind result :=
  λ A B f r, match r with Ok a => f a | Raise e => Raise e end.

(** Dictionaries: [d.get(k)], [d[k] = v], [list(d)]. *)
Fixpoint dict_lookup {V} (k : pystr) (d : list (pystr * V)) : option V :=
  match d with
  | [] => None
  | (k', v) :: d' => if decide (k' = k) then Some v else dict_lookup k d'
  end.

Fixpoint dict_set {V} (k : pystr) (v : V) (d : list (pystr * V))
  : list (pystr * V) :=
  match d with
  | [] => [(k, v)]
  | (k', v') :: d' =>
      if decide (k' = k) then (k', v) :: d' else (k', v') :: dict_set k v d'
  end.

Definition dict_keys {V} (d : list (pystr * V)) : list pystr := d.*1.

(** [v.get(key, default)]: only a [dict] has the method. *)
Definition py_get (v : pyval) (key : pystr) (dflt : pyval) : result pyval :=
  match v with
  | PDict d => Ok (default dflt (dict_lookup key d))
  | _ => Raise AttributeError
  end.

(** [l.extend(v)]: any iterable is accepted; a [str] yields its characters and
    a [dict] its keys. *)
Definition py_extend (l : list pyval) (v : pyval) : result (list pyval) :=
  match v with
  | PList xs => Ok (l ++ xs)
  | PStr s => Ok (l ++ ((λ c, PStr [c]) <$> s))
  | PDict d => Ok (l ++ (PStr <$> dict_keys d))
  | PNone | PBool _ | PInt _ | PFloat _ => Raise TypeError
  end.

(** [v + 1] and [v > 1]. *)
Definition py_succ (v : pyval) : result pyval :=
  match v with
  | PInt n => Ok (PInt (n + 1))
  | PBool b => Ok (PInt (Z.b2z b + 1))
  | PFloat f => Ok (PFloat (f + 1)%float)
  | PNone | PStr _ | PList _ | PDict _ => Raise TypeError
  end.

Definition py_gt_one (v : pyval) : result bool :=
  match v with
  | PInt n => Ok (1 <? n)%Z
  | PBool b => Ok (1 <? Z.b2z b)%Z
  | PFloat f => Ok (PrimFloat.ltb 1%float f)
  | PNone | PStr _ | PList _ | PDict _ => Raise TypeError
  end.

(** [range(start, stop)]: the bound must be an integer. *)
Definition py_range (start : Z) (stop : pyval) : result (list Z) :=
  match stop with
  | PInt n => Ok (seqZ start (n - start))
  | PBool b => Ok (seqZ start (Z.b2z b - start))
  | _ => Raise TypeError
  end.

(** Text written by [json.dump(..., ensure_ascii=False)] to a file opened
    with [encoding='utf-8']: a string that holds a lone surrogate
    (U+D800..U+DFFF), which [json.load] accepts in an escape, cannot be
    encoded, and the write raises [UnicodeEncodeError]. *)
Definition surrogate (c : N) : bool := ((55296 <=? c) && (c <=? 57343))%N.

Definition str_encodable (s : pystr) : bool :=
  forallb (λ c, negb (surrogate c)) s.

Fixpoint encodable (v : pyval) : bool :=
  match v with
  | PStr s => str_encodable s
  | PList l => forallb encodable l
  | PDict d => forallb (λ '(k, x), str_encodable k && encodable x) d
  | PNone | PBool _ | PInt _ | PFloat _ => true
  end.

(** ** Environment detection and adaptive settings *)

Definition MAX_CONCURRENT_REQUESTS (IS_CI : bool) : nat := if IS_CI then 1 else 2.
Definition RETRY_DELAY (IS_CI : bool) : Z := if IS_CI then 20 else 5.
Definition MAX_RETRIES (IS_CI : bool) : nat := if IS_CI then 3 else 5.
Definition REQUEST_TIMEOUT (IS_CI : bool) : Z := if IS_CI then 60 else 30.

Definition EVENT_DATES : list pystr :=
  [u "2025-07-30"; u "2025-07-31"; u "2025-08-01"; u "2025-08-02"; u "2025-08-03"].

(** ** Location processing

    The [if]/[elif] chain of [normalize_and_locate], tried on the upper-cased
    place in source order; [None] is its final [else]. *)

Definition location_rules (place_upper : pystr) : option (pystr * pystr) :=
  if contains (u "INATEL") place_upper then
    Some (u "Inatel", u "Inatel e Arredores")
  else if contains (u "ETE") place_upper then
    Some (u "ETE", u "ETE e Arredores")
  else if contains (u "LOJA MAÇONICA") place_upper
          || contains (u "LOJA MAÇÔNICA") place_upper then
    Some (u "Loja Maçônica", u "Praça e Arredores")
  else if contains (u "REAL PALACE") place_upper then
    Some (u "Real Palace", u "Praça e Arredores")
  else if contains (u "BRASEIRO") place_upper then
    Some (u "Braseiro", u "Praça e Arredores")
  else if contains (u "BOTECO DO TIO") place_upper then
    Some (u "Boteco do Tio João", u "Praça e Arredores")
  else if contains (u "ASSOCIAÇÃO") place_upper then
    Some (u "Associação José do Patrocínio", u "Praça e Arredores")
  else if contains (u "BAR E RESTAURANTE") place_upper then
    Some (u "Bar e Restaurante do Dimas II", u "Praça e Arredores")
  else if contains (u "ESCOLA S") place_upper then
    Some (u "Escola Sanico Teles", u "Praça e Arredores")
  else if contains (u "CASA DINAMARCA") place_upper then
    Some (u "Casa Dinamarca", u "Inatel e Arredores")
  else if contains (u "CASA MFM") place_upper then
    Some (u "Casa MFM", u "Inatel e Arredores")
  else if contains (u "CASA DO CCCF") place_upper then
    Some (u "Casa do CCCF", u "Praça e Arredores")
  else if contains (u "PALCO UNDERSTREAM") place_upper then
    Some (u "Palco UNDERSTREAM", u "Praça e Arredores")
  else if contains (u "INCUBADORA MUNICIPAL") place_upper then
    Some (u "Incubadora Municipal", u "Praça e Arredores")
  else if contains (u "CASA GOOGLE CLOUD") place_upper then
    Some (u "Casa Google Cloud", u "Inatel e Arredores")
  else if contains (u "CASA FUTUROS POSSÍVEIS") place_upper then
    Some (u "Casa Futuros Possíveis - Maria Maria Gastrobar",
          u "Praça e Arredores")
  else if contains (u "PALCO MULTIEXPERIÊNCIAS") place_upper then
    Some (u "Palco MultiExperiências", u "ETE e Arredores")
  else if contains (u "CIRCUITO SESC AMANTIKIR") place_upper then
    Some (u "Circuito SESC Amantikir", u "Praça e Arredores")
  else if contains (u "MIMMA") place_upper then
    Some (u "Mimma's", u "Praça e Arredores")
  else if contains (u "DIJA GASTRONOMIA") place_upper then
    Some (u "Dija Gastronomia", u "Praça e Arredores")
  else if contains (u "GRANDPA JOEL") place_upper
          || contains (u "COFFEE SHOP") place_upper then
    Some (u "Grandpa Joel´s Coffee Shop", u "Praça e Arredores")
  else if contains (u "SINHÁ MOREIRA") place_upper
          || contains (u "SINHA MOREIRA") place_upper then
    Some (u "Av. Sinhá Moreira", u "ETE e Arredores")
  else if contains (u "BE BOLD") place_upper then
    Some (u "Be Bold", u "ETE e Arredores")
  else if contains (u "MERCADO MUNICIPAL") place_upper then
    Some (u "Mercado Municipal", u "ETE e Arredores")
  else if contains (u "FEIRA DA MANTIQUEIRA") place_upper then
    Some (u "Feira da Mantiqueira", u "Inatel e Arredores")
  else if contains (u "A SER ANUNCIADO") place_upper then
    Some (u "A ser anunciado", u "ETE e Arredores")
  else None.

(** The pair [(filter_location, near_location)]; each component is a Python
    value, since the source stores [None] in the second one. *)
Abbreviation location := (pyval * pyval)%type.

(** [location_cache]: original location string to its pair. *)
Abbreviation location_cache := (gmap pystr location).

(** The mapping rules applied to a place that is not in the cache: a rule's
    pair, or the original name and [None]. *)
Definition locate (place : pystr) : location :=
  let place_upper := upper place in
  match location_rules place_upper with
  | Some (filter_location, near_location) =>
      (PStr filter_location, PStr near_location)
  | None => (PStr place, PNone)
  end.

(** [normalize_and_locate(place)], threading the module-level cache.  A place
    that is true but not a string has no [upper] method, and one that cannot
    be hashed cannot be looked up in the cache. *)
Definition normalize_and_locate (cache : location_cache) (place : pyval)
  : result (location * location_cache) :=
  if negb (truthy place) then Ok ((PStr (u "Other"), PStr (u "Other")), cache)
  else
    match place with
    | PStr s =>
        match cache !! s with
        | Some hit => Ok (hit, cache)
        | None =>
            let found := locate s in
            Ok (found, <[s := found]> cache)
        end
    | PList _ | PDict _ => Raise TypeError
    | PNone | PBool _ | PInt _ | PFloat _ => Raise AttributeError
    end.

(** The pair returned for a string: the [classify] of the specification. *)
Definition classify (cache : location_cache) (s : pystr) : option location :=
  match normalize_and_locate cache (PStr s) with
  | Ok (loc, _) => Some loc
  | Raise _ => None
  end.

(** The caches a process can hold: [location_cache = {}] at import, changed
    by [normalize_and_locate] alone. *)
Inductive cache_reachable : location_cache → Prop :=
| cache_start : cache_reachable ∅
| cache_call cache place loc cache' :
    cache_reachable cache →
    normalize_and_locate cache place = Ok (loc, cache') →
    cache_reachable cache'.

(** ** The page fetcher

    What one attempt of [fetch_page] meets: the numbers [random.random()]
    hands to the attempt's calls of [random.uniform], and the answer to the
    request.  [json = None] is a body [response.json()] cannot parse. *)

Inductive reply :=
| Response (status : Z) (json : option pyval)
| Timeout
| Failure.

Record attempt_env := {
  pacing_draw : Q;
  retry_pacing_draw : Q;
  backoff_draw : Q;
  client_error_draw : Q;
  answer : reply
}.

(** Python floats are IEEE 754 binary64 numbers.  A float is represented by
    the rational it denotes, and an operation on floats is the exact
    operation followed by [fl], the rounding to the nearest double, ties to
    even.  The doubles of exponent [e] are the multiples of [2 ^ e] below
    [2 ^ (e + 53)]; [-1074] is the exponent of the subnormal numbers.
    Overflow does not arise: no delay exceeds [2 ^ 10]. *)

(** The [z] with [2 ^ z <= x < 2 ^ (z + 1)], for a positive [x]. *)
Definition floor_log2 (x : Q) : Z :=
  let guess := (Z.log2 (Qnum x) - Z.log2 (Z.pos (Qden x)))%Z in
  if Qle_bool (2 ^ guess) x then guess else (guess - 1)%Z.

Definition round_half_even (q : Q) : Z :=
  let below := Qfloor q in
  match (q - inject_Z below ?= 1 # 2)%Q with
  | Lt => below
  | Gt => (below + 1)%Z
  | Eq => if Z.even below then below else (below + 1)%Z
  end.

Definition float_exponent (x : Q) : Z := Z.max (-1074) (floor_log2 x - 52).

Definition fl_pos (x : Q) : Q :=
  let e := float_exponent x in
  Qred (inject_Z (round_half_even (x / 2 ^ e)) * 2 ^ e).

Definition fl (x : Q) : Q :=
  match Qnum x with
  | Z0 => 0
  | Zpos _ => fl_pos x
  | Zneg _ => Qred (- fl_pos (- x))
  end.
Arguments fl x : simpl never.

(** [random.uniform(a, b)] is [a + (b - a) * random()] in floats, [random()]
    a float in [0, 1). *)
Definition uniform (a b r : Q) : Q := fl (fl a + fl (fl (b - a) * r))%Q.
Definition unit_draw (r : Q) : Prop := (0 <= r /\ r < 1)%Q.

(** What the fetcher does to the outside world. *)
Inductive action :=
| Sleep (seconds : Q)
| Get (date : pystr) (page : Z).

(** The random delay before each request. *)
Definition pacing_delay (IS_CI : bool) (attempt : nat) (e : attempt_env) : Q :=
  if IS_CI then
    let base_delay := uniform 5 12 (pacing_draw e) in
    if (0 <? attempt)%nat
    then fl (base_delay + uniform 10 20 (retry_pacing_draw e))%Q
    else base_delay
  else uniform (1 # 2) (3 # 2) (pacing_draw e).

(** [retry_delay] of the 403 branch.  The first summand is computed on
    Python integers, exactly, and converted when the float is added. *)
Definition rate_limit_delay (IS_CI : bool) (attempt : nat) (e : attempt_env) : Q :=
  if IS_CI then
    let base_delay :=
      fl (fl (inject_Z (30 + Z.of_nat attempt * 30))
          + uniform 0 30 (backoff_draw e))%Q in
    Qmin base_delay 120
  else
    let base_delay :=
      fl (fl (inject_Z (RETRY_DELAY IS_CI * 2 ^ Z.of_nat attempt))
          + uniform 0 5 (backoff_draw e))%Q in
    Qmax 5 (Qmin base_delay 30).

(** [delay] of the two [except] branches. *)
Definition error_delay (IS_CI : bool) : Q :=
  inject_Z (RETRY_DELAY IS_CI * (if IS_CI then 2 else 1)).

(** The body of [for attempt in range(MAX_RETRIES)], over the attempts still
    to make; the list runs out when all retries are exhausted. *)
Fixpoint fetch_page_loop (IS_CI : bool) (date : pystr) (page : Z)
    (env : nat → attempt_env) (attempts : list nat) : pyval * list action :=
  match attempts with
  | [] => (PNone, [])
  | attempt :: later =>
      let e := env attempt in
      let request := [Sleep (pacing_delay IS_CI attempt e); Get date page] in
      let continue (wait : Q) :=
        let '(r, t) := fetch_page_loop IS_CI date page env later in
        (r, request ++ Sleep wait :: t) in
      let raised :=
        if (attempt <? MAX_RETRIES IS_CI - 1)%nat
        then continue (error_delay IS_CI)
        else (PNone, request) in
      match answer e with
      | Response status json =>
          if (status =? 200)%Z then
            match json with
            | Some body => (body, request)
            | None => raised
            end
          else if (status =? 403)%Z && (attempt <? MAX_RETRIES IS_CI - 1)%nat
          then continue (rate_limit_delay IS_CI attempt e)
          else if IS_CI && (400 <=? status)%Z && (status <? 500)%Z
                  && (attempt <? MAX_RETRIES IS_CI - 1)%nat
          then continue (uniform 15 30 (client_error_draw e))
          else (PNone, request)
      | Timeout => raised
      | Failure => raised
      end
  end.

Definition fetch_page (IS_CI : bool) (date : pystr) (page : Z)
    (env : nat → attempt_env) : pyval * list action :=
  fetch_page_loop IS_CI date page env (seq 0 (MAX_RETRIES IS_CI)).



(** ** [asyncio.gather]

    The tasks complete in the order [order] gives (indices into [tasks]); each
    result is stored in the slot of its task, and the list of results is read
    from the slots in task order once all are filled.  A task that raises
    makes [gather] raise.  Reading a slot no task has filled is asyncio's
    [InvalidStateError]. *)

Definition gather_step {A B L} (run : A → result B * list L) (tasks : list A)
    (st : result (list (option B)) * list L) (i : nat)
  : result (list (option B)) * list L :=
  match st.1, tasks !! i with
  | Ok slots, Some t =>
      let '(r, l) := run t in
      (v ← r; Ok (<[i := Some v]> slots), st.2 ++ l)
  | _, _ => st
  end.

Definition gather {A B L} (run : A → result B * list L) (tasks : list A)
    (order : list nat) : result (list B) * list L :=
  let '(slots, log) :=
    foldl (gather_step run tasks)
          (Ok (replicate (length tasks) None), []) order in
  (slots ← slots;
   match mapM id slots with
   | Some results => Ok results
   | None => Raise InvalidStateError
   end,
   log).

(** ** The pagination coordinator *)

(** Steps 1 and 2 of [fetch_all_pages_for_date] after page 1 has arrived: its
    events, and the numbers of the pages still to fetch. *)
Definition remaining_pages (first_page_data : pyval)
  : result (list pyval * list Z) :=
  events ← py_get first_page_data (u "data") (PList []);
  all_events ← py_extend [] events;
  meta ← py_get first_page_data (u "meta") (PDict []);
  last_page ← py_get meta (u "last_page") (PInt 1);
  more ← py_gt_one last_page;
  if more : bool then
    stop ← py_succ last_page;
    pages ← py_range 2 stop;
    Ok (all_events, pages)
  else Ok (all_events, []).

(** Step 4: [for page_num, result in enumerate(results, start=2)]. *)
Fixpoint merge_pages (all_events : list pyval) (results : list pyval)
  : result (list pyval) :=
  match results with
  | [] => Ok all_events
  | result :: later =>
      if truthy result then
        page_events ← py_get result (u "data") (PList []);
        all_events' ← py_extend all_events page_events;
        merge_pages all_events' later
      else merge_pages all_events later
  end.

(** [fetch_all_pages_for_date]: the events of the date, and what was done to
    get them.  [net page] is what the attempts for [page] meet, [order] the
    order in which the tasks for pages 2.. complete. *)
Definition fetch_all_pages_for_date (IS_CI : bool)
    (net : Z → nat → attempt_env) (date : pystr) (order : list nat)
  : result (list pyval) * list action :=
  let '(first_page_data, log1) := fetch_page IS_CI date 1 (net 1%Z) in
  if negb (truthy first_page_data) then (Ok [], log1)
  else
    match remaining_pages first_page_data with
    | Raise e => (Raise e, log1)
    | Ok (all_events, pages) =>
        let fetch_with_semaphore (p : Z) :=
          let '(r, t) := fetch_page IS_CI date p (net p) in (Ok r, t) in
        let '(results, log2) := gather fetch_with_semaphore pages order in
        (results ← results; merge_pages all_events results, log1 ++ log2)
    end.



(** The test [main] applies to the events of a date: [if events:]. *)
Definition date_succeeded (events : list pyval) : bool := truthy (PList events).

(** ** The orchestrator *)

Record schedule := {
  date_order : list nat;
  page_order : pystr → list nat
}.

(** [fetch_all_dates]: one coordinator per date, gathered, and the results
    mapped back to their dates. *)
Definition fetch_all_dates (IS_CI : bool)
    (net : pystr → Z → nat → attempt_env) (sched : schedule)
    (dates : list pystr) : result (list (pystr * list pyval)) * list action :=
  let task (date : pystr) :=
    fetch_all_pages_for_date IS_CI (net date) date (page_order sched date) in
  let '(results, log) := gather task dates (date_order sched) in
  (results ← results;
   Ok (foldl (λ all_results '(date, events), dict_set date events all_results)
             [] (zip dates results)),
   log).

(** The concurrency limiter.  Every call of [fetch_page] sits inside
    [async with semaphore], page 1 of each date included, and all of them
    share the one [asyncio.Semaphore(MAX_CONCURRENT_REQUESTS)] that
    [fetch_all_dates] creates.  A state of the run is the counter of the
    semaphore and where each page fetch stands. *)

Abbreviation job := (pystr * Z)%type.

Record run_state := {
  permits : nat;
  waiting : list job;
  in_flight : list job;
  returned : list (job * pyval)
}.

Definition initial_state (IS_CI : bool) (dates : list pystr) : run_state :=
  {| permits := MAX_CONCURRENT_REQUESTS IS_CI;
     waiting := (λ date, (date, 1%Z)) <$> dates;
     in_flight := [];
     returned := [] |}.

(** What the coordinator of [date] schedules when a fetch returns: nothing
    unless it is page 1 and its data is true, then pages 2..last_page. *)
Definition scheduled_after (date : pystr) (page : Z) (data : pyval) : list job :=
  if (page =? 1)%Z && truthy data then
    match remaining_pages data with
    | Ok (_, pages) => (λ p, (date, p)) <$> pages
    | Raise _ => []
    end
  else [].

(** [acquire] takes a permit when one is left; leaving the [async with] block
    gives it back, whatever [fetch_page] returned. *)
Inductive step (IS_CI : bool) (net : pystr → Z → nat → attempt_env)
  : run_state → run_state → Prop :=
| step_acquire s w1 j w2 :
    waiting s = w1 ++ j :: w2 →
    0 < permits s →
    step IS_CI net s
      {| permits := permits s - 1;
         waiting := w1 ++ w2;
         in_flight := j :: in_flight s;
         returned := returned s |}
| step_release s f1 date page f2 :
    in_flight s = f1 ++ (date, page) :: f2 →
    step IS_CI net s
      {| permits := permits s + 1;
         waiting :=
           waiting s
           ++ scheduled_after date page
                (fetch_page IS_CI date page (net date page)).1;
         in_flight := f1 ++ f2;
         returned :=
           returned s
           ++ [((date, page), (fetch_page IS_CI date page (net date page)).1)] |}.

Inductive reachable (IS_CI : bool) (net : pystr → Z → nat → attempt_env)
    (dates : list pystr) : run_state → Prop :=
| reachable_start : reachable IS_CI net dates (initial_state IS_CI dates)
| reachable_step s s' :
    reachable IS_CI net dates s →
    step IS_CI net s s' →
    reachable IS_CI net dates s'.

(** ** The coroutines and the event loop

    The same two functions, written as the coroutines they are: what matters
    here is where they wait.  [Acquire] and [Release] are the entry and the
    exit of [async with semaphore], [AwaitFetch] is [await fetch_page(...)]
    and [AwaitGather] is [await asyncio.gather] of the tasks; each carries the
    rest of the function. *)

Inductive coro :=
| Return (v : pyval)
| Raising (e : exn)
| Acquire (k : coro)
| Release (k : coro)
| AwaitFetch (date : pystr) (page : Z) (k : pyval → coro)
| AwaitGather (tasks : list coro) (k : list pyval → coro).

(** [fetch_with_semaphore(p)], the closure of step 3. *)
Definition fetch_with_semaphore (date : pystr) (p : Z) : coro :=
  Acquire (AwaitFetch date p (λ r, Release (Return r))).

(** Step 4, after [gather] has returned. *)
Definition merge_and_return (all_events : list pyval) (results : list pyval)
  : coro :=
  match merge_pages all_events results with
  | Ok events => Return (PList events)
  | Raise e => Raising e
  end.

(** [fetch_all_pages_for_date] from the end of its first [async with]. *)
Definition after_first_page (date : pystr) (first_page_data : pyval) : coro :=
  Release
    (if negb (truthy first_page_data) then Return (PList [])
     else
       match remaining_pages first_page_data with
       | Raise e => Raising e
       | Ok (all_events, []) => Return (PList all_events)
       | Ok (all_events, pages) =>
           AwaitGather (fetch_with_semaphore date <$> pages)
                       (merge_and_return all_events)
       end).

Definition fetch_all_pages_for_date_task (date : pystr) : coro :=
  Acquire (AwaitFetch date 1 (after_first_page date)).

(** [fetch_all_dates] from its [gather]: the results mapped to the dates. *)
Definition map_results (dates : list pystr) (results : list pyval) : coro :=
  Return (PDict (foldl (λ all_results '(date, events),
                          dict_set date events all_results)
                       [] (zip dates results))).

Definition fetch_all_dates_task (dates : list pystr) : coro :=
  AwaitGather (fetch_all_pages_for_date_task <$> dates) (map_results dates).

(** A task of the event loop: a coroutine about to go on, one that is
    inside [fetch_page], one that waits for the tasks it gathered, and one
    that has finished.  When a gathered task raises, [gather] raises in the
    task that awaits it while the other gathered tasks stay alive:
    [Abandoned]. *)
Inductive task :=
| Ready (c : coro)
| Fetching (date : pystr) (page : Z) (k : pyval → coro)
| Gathering (children : list task) (k : list pyval → coro)
| Finished (r : result pyval)
| Abandoned (e : exn) (children : list task).

(** A coroutine that is inside [async with semaphore]. *)
Definition holds (c : coro) : bool :=
  match c with
  | Release _ | AwaitFetch _ _ _ => true
  | _ => false
  end.

(** The tasks that hold the semaphore, and those inside [fetch_page]. *)
Fixpoint holding (t : task) : nat :=
  match t with
  | Ready c => if holds c then 1 else 0
  | Fetching _ _ _ => 1
  | Gathering children _ => sum_list_with holding children
  | Finished _ => 0
  | Abandoned _ children => sum_list_with holding children
  end.

Fixpoint fetching (t : task) : nat :=
  match t with
  | Ready _ => 0
  | Fetching _ _ _ => 1
  | Gathering children _ => sum_list_with fetching children
  | Finished _ => 0
  | Abandoned _ children => sum_list_with fetching children
  end.

Definition raised_with (e : exn) (t : task) : Prop :=
  t = Finished (Raise e) ∨ ∃ children, t = Abandoned e children.

(** The steps of the event loop on the counter of the semaphore and the
    tree of tasks.  Any task that can go on may be the next to run; a task
    enters [async with semaphore] only when the counter is positive.  A task
    may also be cancelled where it stands (as [asyncio.run] does to the
    tasks left when [main] ends), leaving its [async with] on the way. *)
Inductive loop_step (IS_CI : bool) (net : pystr → Z → nat → attempt_env)
  : nat * task → nat * task → Prop :=
| step_enter n k :
    0 < n →
    loop_step IS_CI net (n, Ready (Acquire k)) (n - 1, Ready k)
| step_exit n k :
    loop_step IS_CI net (n, Ready (Release k)) (n + 1, Ready k)
| step_call n date page k :
    loop_step IS_CI net (n, Ready (AwaitFetch date page k))
                        (n, Fetching date page k)
| step_fetched n date page k :
    loop_step IS_CI net
      (n, Fetching date page k)
      (n, Ready (k (fetch_page IS_CI date page (net date page)).1))
| step_return n v :
    loop_step IS_CI net (n, Ready (Return v)) (n, Finished (Ok v))
| step_raise n e :
    loop_step IS_CI net (n, Ready (Raising e)) (n, Finished (Raise e))
| step_gather n tasks k :
    loop_step IS_CI net (n, Ready (AwaitGather tasks k))
                        (n, Gathering (Ready <$> tasks) k)
| step_gathered n results k :
    loop_step IS_CI net (n, Gathering (Finished ∘ Ok <$> results) k)
                        (n, Ready (k results))
| step_gather_raises n children k e child :
    child ∈ children → raised_with e child →
    loop_step IS_CI net (n, Gathering children k) (n, Abandoned e children)
| step_child n n' before child child' after k :
    loop_step IS_CI net (n, child) (n', child') →
    loop_step IS_CI net (n, Gathering (before ++ child :: after) k)
                        (n', Gathering (before ++ child' :: after) k)
| step_orphan n n' e before child child' after :
    loop_step IS_CI net (n, child) (n', child') →
    loop_step IS_CI net (n, Abandoned e (before ++ child :: after))
                        (n', Abandoned e (before ++ child' :: after))
| step_cancel n c :
    loop_step IS_CI net (n, Ready c)
                        (n + (if holds c then 1 else 0),
                         Finished (Raise CancelledError))
| step_cancel_fetch n date page k :
    loop_step IS_CI net (n, Fetching date page k)
                        (n + 1, Finished (Raise CancelledError)).

(** The states of a run of [fetch_all_dates]: the semaphore is created with
    [MAX_CONCURRENT_REQUESTS] permits. *)
Inductive loop_reachable (IS_CI : bool) (net : pystr → Z → nat → attempt_env)
    (dates : list pystr) : nat * task → Prop :=
| loop_start :
    loop_reachable IS_CI net dates
      (MAX_CONCURRENT_REQUESTS IS_CI, Ready (fetch_all_dates_task dates))
| loop_next s s' :
    loop_reachable IS_CI net dates s →
    loop_step IS_CI net s s' →
    loop_reachable IS_CI net dates s'.

(** Where a coroutine stands with respect to the semaphore: outside
    ([false]) or inside ([true]) an [async with semaphore].  It enters only
    from outside, leaves only from inside, calls [fetch_page] only inside,
    and gathers and returns only outside. *)
Inductive scoped : bool → coro → Prop :=
| scoped_return v : scoped false (Return v)
| scoped_raising e : scoped false (Raising e)
| scoped_acquire k : scoped true k → scoped false (Acquire k)
| scoped_release k : scoped false k → scoped true (Release k)
| scoped_fetch date page k :
    (∀ v, scoped true (k v)) → scoped true (AwaitFetch date page k)
| scoped_gather tasks k :
    Forall (scoped false) tasks → (∀ results, scoped false (k results)) →
    scoped false (AwaitGather tasks k).

Inductive task_scoped : task → Prop :=
| ready_scoped c : scoped (holds c) c → task_scoped (Ready c)
| fetching_scoped date page k :
    (∀ v, scoped true (k v)) → task_scoped (Fetching date page k)
| gathering_scoped children k :
    Forall task_scoped children → (∀ results, scoped false (k results)) →
    task_scoped (Gathering children k)
| finished_scoped r : task_scoped (Finished r)
| abandoned_scoped e children :
    Forall task_scoped children → task_scoped (Abandoned e children).

(** ** Record normalisation *)

(** [v[key] = x]. *)
Definition py_setitem (v : pyval) (key : pystr) (x : pyval) : result pyval :=
  match v with
  | PDict d => Ok (PDict (dict_set key x d))
  | _ => Raise TypeError
  end.

(** A raw record: an object whose [place] is a string, or absent, or false. *)
Definition place_ok (place : pyval) : bool :=
  match place with
  | PStr _ => true
  | _ => negb (truthy place)
  end.

Definition raw_record (event : pyval) : bool :=
  match event with
  | PDict d => place_ok (default (PStr []) (dict_lookup (u "place") d))
  | _ => false
  end.

(** [process_events]: the loop over the events, threading the cache. *)
Fixpoint process_events (cache : location_cache) (events : list pyval)
  : result (list pyval * location_cache) :=
  match events with
  | [] => Ok ([], cache)
  | event :: later =>
      place ← py_get event (u "place") (PStr []);
      '(loc, cache') ← normalize_and_locate cache place;
      event1 ← py_setitem event (u "filterLocation") loc.1;
      event2 ← py_setitem event1 (u "nearLocation") loc.2;
      '(later', cache'') ← process_events cache' later;
      Ok (event2 :: later', cache'')
  end.

(** ** Saving, and the summary of [main] *)

(** The readings of the clock a run takes: the timestamps and the two
    floating-point figures derived from the elapsed time. *)
Record clock := {
  brt_now : pystr;
  scraped_at : pystr → pystr;
  scraping_time_seconds : float;
  events_per_second : Z → pyval
}.

Definition events_file (date : pystr) : pystr :=
  u "hacktown_events_" ++ date ++ u ".json".

(** [save_events_to_file]: the path written and the data dumped to it.  The
    directory is created first; the dump raises when the data cannot be
    encoded, and nothing in [main] catches that. *)
Definition save_events_to_file (clk : clock) (cache : location_cache)
    (date : pystr) (events : list pyval)
  : result ((pystr * pyval) * location_cache) :=
  '(processed_events, cache') ← process_events cache events;
  let filepath := u "events/" ++ events_file date in
  let output_data :=
    PDict [ (u "date", PStr date);
            (u "total_events", PInt (Z.of_nat (length processed_events)));
            (u "scraped_at", PStr (scraped_at clk date));
            (u "events", PList processed_events) ] in
  if encodable output_data then Ok ((filepath, output_data), cache')
  else Raise UnicodeEncodeError.

(** The counters of [main] and what it has written so far. *)
Record tally := {
  total_events : Z;
  successful_dates : Z;
  failed_dates : list pystr;
  files : list (pystr * pyval);
  cache_of : location_cache
}.

Definition no_results : tally :=
  {| total_events := 0; successful_dates := 0; failed_dates := [];
     files := []; cache_of := ∅ |}.

(** [for date, events in all_events.items()]. *)
Fixpoint process_results (clk : clock) (items : list (pystr * list pyval))
    (t : tally) : result tally :=
  match items with
  | [] => Ok t
  | (date, events) :: later =>
      if truthy (PList events) then
        '(file, cache') ← save_events_to_file clk (cache_of t) date events;
        process_results clk later
          {| total_events := total_events t + Z.of_nat (length events);
             successful_dates := successful_dates t + 1;
             failed_dates := failed_dates t;
             files := files t ++ [file];
             cache_of := cache' |}
      else
        process_results clk later
          {| total_events := total_events t;
             successful_dates := successful_dates t;
             failed_dates := failed_dates t ++ [date];
             files := files t;
             cache_of := cache_of t |}
  end.

(** [summary.json] as found at start-up: no file, a file [json.load] cannot
    read, or a value. *)
Definition load_existing_summary (summary_file : option (option pyval)) : pyval :=
  match summary_file with
  | Some (Some loaded) => loaded
  | _ => PDict []
  end.

(** [summary_data], in its two cases. *)
Definition summary_data (clk : clock) (existing_summary : pyval) (t : tally)
  : result pyval :=
  let fetch_successful := (0 <? successful_dates t)%Z in
  if fetch_successful then
    Ok (PDict
      [ (u "scraping_completed", PStr (brt_now clk));
        (u "total_events", PInt (total_events t));
        (u "successful_dates", PInt (successful_dates t));
        (u "failed_dates", PList (PStr <$> failed_dates t));
        (u "dates_processed", PList (PStr <$> EVENT_DATES));
        (u "files_created",
           PList ((λ date, PStr (events_file date))
                    <$> filter (λ date, date ∉ failed_dates t) EVENT_DATES));
        (u "scraping_time_seconds", PFloat (scraping_time_seconds clk));
        (u "events_per_second", events_per_second clk (total_events t));
        (u "location_cache_size", PInt (Z.of_nat (size (cache_of t)))) ])
  else
    scraping_completed ←
      py_get existing_summary (u "scraping_completed") (PStr (u "Never"));
    total ← py_get existing_summary (u "total_events") (PInt 0);
    successful ← py_get existing_summary (u "successful_dates") (PInt 0);
    files_created ← py_get existing_summary (u "files_created") (PList []);
    failures ← py_get existing_summary (u "consecutive_failures") (PInt 0);
    consecutive_failures ← py_succ failures;
    Ok (PDict
      [ (u "scraping_completed", scraping_completed);
        (u "total_events", total);
        (u "successful_dates", successful);
        (u "failed_dates", PList (PStr <$> failed_dates t));
        (u "dates_processed", PList (PStr <$> EVENT_DATES));
        (u "files_created", files_created);
        (u "scraping_time_seconds", PFloat (scraping_time_seconds clk));
        (u "last_failed_attempt", PStr (brt_now clk));
        (u "consecutive_failures", consecutive_failures) ]).

(** [main]: the summary it dumps and the event files it wrote. *)
Definition main (IS_CI : bool) (net : pystr → Z → nat → attempt_env)
    (sched : schedule) (clk : clock) (summary_file : option (option pyval))
  : result (pyval * list (pystr * pyval)) :=
  let existing_summary := load_existing_summary summary_file in
  all_events ← (fetch_all_dates IS_CI net sched EVENT_DATES).1;
  t ← process_results clk all_events no_results;
  summary ← summary_data clk existing_summary t;
  Ok (summary, files t).

(** ** The files a run leaves

    What a run finds and leaves on disk, as far as the next run can tell:
    whether the directory [events/] exists, and [events/summary.json] (no
    file, a file [json.load] cannot read, or a value).  Only
    [save_events_to_file] creates the directory.  [main] opens the summary
    for writing inside a [try]: without the directory the write fails and is
    only logged, and a summary that cannot be encoded leaves a truncated
    file. *)
Record disk := {
  events_dir : bool;
  summary_json : option (option pyval)
}.

(** [os.path.exists(summary_file)] and the file found. *)
Definition summary_on (d : disk) : option (option pyval) :=
  if events_dir d then summary_json d else None.

Definition write_summary (d : disk) (summary : pyval) : disk :=
  if events_dir d then
    {| events_dir := true;
       summary_json :=
         if encodable summary then Some (Some summary) else Some None |}
  else d.

(** One execution of the script.  An exception in [fetch_all_dates] comes
    before anything is written; one in the loop over the dates comes from
    [save_events_to_file], after [os.makedirs]. *)
Definition run_script (IS_CI : bool) (net : pystr → Z → nat → attempt_env)
    (sched : schedule) (clk : clock) (d : disk) : disk :=
  let existing_summary := load_existing_summary (summary_on d) in
  match (fetch_all_dates IS_CI net sched EVENT_DATES).1 with
  | Raise _ => d
  | Ok all_events =>
      match process_results clk all_events no_results with
      | Raise _ => {| events_dir := true; summary_json := summary_on d |}
      | Ok t =>
          let d' :=
            {| events_dir := events_dir d || (0 <? successful_dates t)%Z;
               summary_json := summary_on d |} in
          match summary_data clk existing_summary t with
          | Raise _ => d'
          | Ok summary => write_summary d' summary
          end
      end
  end.

(** The script run again and again, as a scheduled job does. *)
Fixpoint runs (IS_CI : bool)
    (envs : list ((pystr → Z → nat → attempt_env) * schedule * clock))
    (d : disk) : disk :=
  match envs with
  | [] => d
  | (net, sched, clk) :: later =>
      runs IS_CI later (run_script IS_CI net sched clk d)
  end.

(** What a file written for a date holds. *)
Definition file_of (clk : clock) (file : pystr * pyval)
    (item : pystr * list pyval) : Prop :=
  ∃ processed,
    length processed = length item.2
    ∧ file = (u "events/" ++ events_file item.1,
              PDict [ (u "date", PStr item.1);
                      (u "total_events", PInt (Z.of_nat (length processed)));
                      (u "scraped_at", PStr (scraped_at clk item.1));
                      (u "events", PList processed) ]).

(** The [total_events] a written file declares. *)
Definition file_total (file : pystr * pyval) : Z :=
  match file.2 with
  | PDict d =>
      match dict_lookup (u "total_events") d with
      | Some (PInt n) => n
      | _ => 0
      end
  | _ => 0
  end.

(** ** Measures of a trace *)

(** The requests of a trace, and the time it sleeps in all. *)
Definition is_request (a : action) : bool :=
  match a with
  | Get _ _ => true
  | Sleep _ => false
  end.

Definition requests (t : list action) : list action := filter is_request t.

Fixpoint total_sleep (t : list action) : Q :=
  match t with
  | [] => 0
  | Sleep seconds :: t' => (seconds + total_sleep t')%Q
  | Get _ _ :: t' => total_sleep t'
  end.

(** All the numbers drawn for an attempt come from [random()]. *)
Definition unit_draws (e : attempt_env) : Prop :=
  unit_draw (pacing_draw e) ∧ unit_draw (retry_pacing_draw e)
  ∧ unit_draw (backoff_draw e) ∧ unit_draw (client_error_draw e).

(** ** Scenarios

    Concrete networks and pages, used to run the definitions above. *)

(** Every attempt draws 0 from [random()] and meets [answer]. *)
Definition always (answer : reply) : nat → attempt_env :=
  λ _, {| pacing_draw := 0; retry_pacing_draw := 0; backoff_draw := 0;
          client_error_draw := 0; answer := answer |}.

(** A page of [n] events held at INATEL, in a listing of [last_page] pages. *)
Definition sample_event : pyval :=
  PDict [ (u "id", PInt 7); (u "place", PStr (u "INATEL - Sala 1")) ].

Definition sample_page (n : nat) (last_page : Z) : pyval :=
  PDict [ (u "data", PList (replicate n sample_event));
          (u "meta", PDict [ (u "last_page", PInt last_page) ]) ].

(** A date of three pages holding 4, 5 and 7 events. *)
Definition three_pages (page : Z) : nat → attempt_env :=
  if (page =? 1)%Z then always (Response 200 (Some (sample_page 4 3)))
  else if (page =? 2)%Z then always (Response 200 (Some (sample_page 5 3)))
  else always (Response 200 (Some (sample_page 7 3))).


(** A clock, a network on which every request fails, one on which the
    second date alone answers (with its three pages), and the schedule in
    which the dates complete in order and the pages of a date in reverse. *)
Definition sample_clock : clock :=
  {| brt_now := u "2025-07-29T21:00:00-03:00";
     scraped_at := λ _, u "2025-07-29T20:59:00-03:00";
     scraping_time_seconds := 61.5%float;
     events_per_second := λ _, PFloat 0.25%float |}.

Definition dead_network : pystr → Z → nat → attempt_env :=
  λ _ _, always (Response 500 None).

Definition one_date_network : pystr → Z → nat → attempt_env :=
  λ date, if decide (date = u "2025-07-31") then three_pages
          else λ _, always (Response 500 None).

Definition sample_schedule : schedule :=
  {| date_order := [0; 1; 2; 3; 4]; page_order := λ _, [1; 0] |}.

(** A date whose first page announces a second one, which arrives as a
    JSON array instead of an object. *)
Definition array_second_page (page : Z) : nat → attempt_env :=
  if (page =? 1)%Z then always (Response 200 (Some (sample_page 4 2)))
  else always (Response 200 (Some (PList [PInt 1]))).

(** The event loop in CI once the task of the first date has entered the
    semaphore and called [fetch_page]: no permit is left, and the tasks of
    the other dates wait at the entry. *)
Definition first_fetch_in_flight : nat * task :=
  (0,
   Gathering
     (Fetching (u "2025-07-30") 1 (after_first_page (u "2025-07-30"))
      :: (Ready ∘ fetch_all_pages_for_date_task
            <$> [u "2025-07-31"; u "2025-08-01"; u "2025-08-02";
                 u "2025-08-03"]))
     (map_results EVENT_DATES)).


(* ===================================================================== *)
(** * Part II: theorems *)
(* ===================================================================== *)

(** ** Case mapping *)

Ltac cp_cases :=
  repeat match goal with
    | |- context [(?a <=? ?b)%N] => destruct (N.leb_spec a b)
    | |- context [(?a =? ?b)%N] => destruct (N.eqb_spec a b)
    end;
  simpl; try reflexivity; try lia.












Lemma upper_app s t : upper (s ++ t) = upper s ++ upper t.
Proof. apply bind_app. Qed.







(** ** The location classifier *)

Lemma normalize_and_locate_str cache s :
  normalize_and_locate cache (PStr s) =
    if decide (s = []) then Ok ((PStr (u "Other"), PStr (u "Other")), cache)
    else match cache !! s with
         | Some hit => Ok (hit, cache)
         | None => Ok (locate s, <[s := locate s]> cache)
         end.
Proof.
  unfold normalize_and_locate. simpl.
  destruct (decide (s = [])) as [->|Hne]; [reflexivity|].
  rewrite bool_decide_eq_false_2 by done. reflexivity.
Qed.

(** On strings the classifier always returns a pair. *)
Lemma normalize_and_locate_total cache s :
  ∃ loc cache', normalize_and_locate cache (PStr s) = Ok (loc, cache').
Proof.
  rewrite normalize_and_locate_str.
  destruct (decide (s = [])); [eauto|]. destruct (cache !! s); eauto.
Qed.

(** Every entry of a reachable cache is what the rules give for its key. *)
Lemma cache_reachable_sound cache :
  cache_reachable cache → ∀ s loc, cache !! s = Some loc → loc = locate s.
Proof.
  induction 1 as [|cache place loc cache' _ IH Hcall]; intros s hit Hs.
  - rewrite lookup_empty in Hs. discriminate.
  - unfold normalize_and_locate in Hcall.
    destruct (negb (truthy place)); [injection Hcall as _ <-; eauto|].
    destruct place as [| | | |p| |]; try discriminate.
    destruct (cache !! p) eqn:Hp.
    + injection Hcall as _ <-. eauto.
    + injection Hcall as _ <-.
      destruct (decide (p = s)) as [->|Hne].
      * rewrite lookup_insert_eq in Hs. congruence.
      * rewrite lookup_insert_ne in Hs by done. eauto.
Qed.

Lemma classify_reachable cache s :
  cache_reachable cache → s ≠ [] → classify cache s = Some (locate s).
Proof.
  intros Hc Hs. unfold classify. rewrite normalize_and_locate_str.
  destruct (decide (s = [])); [done|].
  destruct (cache !! s) as [hit|] eqn:Hhit; [|reflexivity].
  by rewrite (cache_reachable_sound _ Hc _ _ Hhit).
Qed.

Lemma classify_empty cache :
  classify cache [] = Some (PStr (u "Other"), PStr (u "Other")).
Proof. reflexivity. Qed.


(** C6.  [normalize_and_locate] returns a pair for every string and every
    state of the cache, and ["Other", "Other"] for the empty string; but for
    a place no rule matches, here "Centro de Eventos", the second component
    is [None], not a string: the pair is the place itself and [None]. *)
Theorem unmapped_place_has_no_near_location :
  (∀ cache s, ∃ loc, classify cache s = Some loc)
  ∧ (∀ cache, classify cache [] = Some (PStr (u "Other"), PStr (u "Other")))
  ∧ location_rules (upper (u "Centro de Eventos")) = None
  ∧ normalize_and_locate ∅ (PStr (u "Centro de Eventos"))
    = Ok ((PStr (u "Centro de Eventos"), PNone),
          {[ u "Centro de Eventos" := (PStr (u "Centro de Eventos"), PNone) ]}).
Proof.
  split; [|split; [|split]].
  - intros cache s. unfold classify.
    destruct (normalize_and_locate_total cache s) as (loc & cache' & ->). eauto.
  - apply classify_empty.
  - vm_compute. reflexivity.
  - rewrite normalize_and_locate_str, lookup_empty.
    rewrite decide_False by (vm_compute; discriminate).
    assert (locate (u "Centro de Eventos")
            = (PStr (u "Centro de Eventos"), PNone)) as ->
      by (vm_compute; reflexivity).
    reflexivity.
Qed.




(** ** Double-precision rounding *)

Lemma two_power_pos z : (0 < 2 ^ z)%Q.
Proof. by apply Qpower_0_lt. Qed.

Lemma floor_log2_spec x :
  (0 < x)%Q → (2 ^ floor_log2 x <= x)%Q ∧ (x < 2 ^ (floor_log2 x + 1))%Q.
Proof.
  intros Hx. unfold floor_log2. cbn zeta.
  destruct x as [n d]. cbn [Qnum Qden].
  assert (0 < n)%Z as Hn by (unfold Qlt in Hx; simpl in Hx; lia).
  set (a := Z.log2 n). set (b := Z.log2 (Z.pos d)).
  destruct (Z.log2_spec n Hn) as [Ha1 Ha2].
  destruct (Z.log2_spec (Z.pos d) ltac:(lia)) as [Hb1 Hb2].
  fold a in Ha1, Ha2. fold b in Hb1, Hb2.
  assert (0 <= a)%Z as Ha0 by apply Z.log2_nonneg.
  assert (0 <= b)%Z as Hb0 by apply Z.log2_nonneg.
  assert (n # d == inject_Z n / inject_Z (Z.pos d))%Q as Hnd
    by apply Qmake_Qdiv.
  assert (0 < inject_Z (Z.pos d))%Q as Hdpos
    by (change 0%Q with (inject_Z 0); rewrite <- Zlt_Qlt; lia).
  (* the integer bounds, in Q *)
  assert (2 ^ a <= inject_Z n)%Q as Qa1.
  { change 2%Q with (inject_Z 2). rewrite <- Zpower_Qpower by done.
    by rewrite <- Zle_Qle. }
  assert (inject_Z n < 2 ^ (a + 1))%Q as Qa2.
  { change 2%Q with (inject_Z 2). rewrite <- Zpower_Qpower by lia.
    rewrite <- Zlt_Qlt. by rewrite <- Z.add_1_r in Ha2. }
  assert (2 ^ b <= inject_Z (Z.pos d))%Q as Qb1.
  { change 2%Q with (inject_Z 2). rewrite <- Zpower_Qpower by done.
    by rewrite <- Zle_Qle. }
  assert (inject_Z (Z.pos d) < 2 ^ (b + 1))%Q as Qb2.
  { change 2%Q with (inject_Z 2). rewrite <- Zpower_Qpower by lia.
    rewrite <- Zlt_Qlt. by rewrite <- Z.add_1_r in Hb2. }
  pose proof (two_power_pos a). pose proof (two_power_pos b).
  pose proof (two_power_pos (a - b)) as Hab.
  assert (2 ^ (a + 1) == 2 ^ a * 2)%Q as Ea
    by (rewrite Qpower_plus by done; reflexivity).
  assert (2 ^ (b + 1) == 2 ^ b * 2)%Q as Eb
    by (rewrite Qpower_plus by done; reflexivity).
  assert (2 ^ a == 2 ^ (a - b) * 2 ^ b)%Q as Eab.
  { rewrite <- Qpower_plus by done. by replace (a - b + b)%Z with a by lia. }
  assert (2 ^ (a - b + 1) == 2 ^ (a - b) * 2)%Q as E1
    by (rewrite Qpower_plus by done; reflexivity).
  assert (2 ^ (a - b) == 2 ^ (a - b - 1) * 2)%Q as E2.
  { rewrite <- (Qpower_1_r 2) at 3. rewrite <- Qpower_plus by done.
    by replace (a - b - 1 + 1)%Z with (a - b)%Z by lia. }
  pose proof (two_power_pos (a - b - 1)) as Hab1.
  (* x * d = n *)
  assert ((n # d) * inject_Z (Z.pos d) == inject_Z n)%Q as Hmul.
  { rewrite Hnd. field. lra. }
  destruct (Qle_bool (2 ^ (a - b)) (n # d)) eqn:Hle.
  - apply Qle_bool_iff in Hle. split; [done|].
    rewrite E1. apply Qnot_le_lt. intros Hge.
    assert (2 ^ (a - b) * 2 * inject_Z (Z.pos d) <= inject_Z n)%Q.
    { rewrite <- Hmul. apply Qmult_le_compat_r; [done|lra]. }
    nra.
  - assert (n # d < 2 ^ (a - b))%Q as Hlt.
    { apply Qnot_le_lt. intros Hge. apply Qle_bool_iff in Hge. congruence. }
    replace (a - b - 1 + 1)%Z with (a - b)%Z by lia. split; [|done].
    apply Qnot_lt_le. intros Hlow.
    assert (inject_Z n < 2 ^ (a - b - 1) * inject_Z (Z.pos d))%Q.
    { rewrite <- Hmul. apply Qmult_lt_compat_r; done. }
    nra.
Qed.

Lemma floor_log2_unique x z :
  (2 ^ z <= x)%Q → (x < 2 ^ (z + 1))%Q → floor_log2 x = z.
Proof.
  intros Hlow Hhigh.
  assert (0 < x)%Q as Hx by (pose proof (two_power_pos z); lra).
  destruct (floor_log2_spec x Hx) as [Hlow' Hhigh'].
  assert (floor_log2 x < z + 1)%Z.
  { apply (Qpower_lt_compat_l_inv 2); [lra|done]. }
  assert (z < floor_log2 x + 1)%Z.
  { apply (Qpower_lt_compat_l_inv 2); [lra|done]. }
  lia.
Qed.

Lemma floor_log2_proper x y : (0 < x)%Q → (x == y)%Q → floor_log2 x = floor_log2 y.
Proof.
  intros Hx Hxy. symmetry.
  destruct (floor_log2_spec x Hx). apply floor_log2_unique; lra.
Qed.

Lemma floor_log2_mono x y :
  (0 < x)%Q → (x <= y)%Q → (floor_log2 x <= floor_log2 y)%Z.
Proof.
  intros Hx Hxy.
  destruct (floor_log2_spec x Hx) as [Hlow _].
  destruct (floor_log2_spec y ltac:(lra)) as [_ Hhigh].
  assert (floor_log2 x < floor_log2 y + 1)%Z; [|lia].
  apply (Qpower_lt_compat_l_inv 2); [lra|done].
Qed.

Lemma round_half_even_proper q q' :
  (q == q')%Q → round_half_even q = round_half_even q'.
Proof.
  intros Hq. unfold round_half_even. rewrite <- (Qfloor_comp _ _ Hq).
  assert ((q - inject_Z (Qfloor q) ?= 1 # 2)%Q
          = (q' - inject_Z (Qfloor q) ?= 1 # 2)%Q) as ->; [|done].
  apply Qcompare_comp; [|reflexivity].
  apply Qminus_comp; [exact Hq|reflexivity].
Qed.

Lemma round_half_even_bounds q :
  (Qfloor q <= round_half_even q <= Qfloor q + 1)%Z.
Proof.
  unfold round_half_even.
  destruct (_ ?= _)%Q; [destruct (Z.even _)| |]; lia.
Qed.

Lemma round_half_even_Z z : round_half_even (inject_Z z) = z.
Proof.
  unfold round_half_even. rewrite Qfloor_Z.
  assert ((inject_Z z - inject_Z z ?= 1 # 2)%Q = Lt) as ->; [|done].
  apply (proj1 (Qlt_alt _ _)). generalize (inject_Z z). intros q. lra.
Qed.

Lemma round_half_even_mono q q' :
  (q <= q')%Q → (round_half_even q <= round_half_even q')%Z.
Proof.
  intros Hq. pose proof (Qfloor_resp_le _ _ Hq) as Hfloor.
  destruct (decide (Qfloor q = Qfloor q')) as [Heq|Hne].
  - unfold round_half_even. rewrite <- Heq.
    destruct (Qcompare_spec (q - inject_Z (Qfloor q)) (1 # 2)) as [H1|H1|H1];
      destruct (Qcompare_spec (q' - inject_Z (Qfloor q)) (1 # 2)) as [H2|H2|H2];
      try destruct (Z.even (Qfloor q)); try lia; exfalso; lra.
  - pose proof (round_half_even_bounds q). pose proof (round_half_even_bounds q').
    lia.
Qed.

Lemma float_exponent_spec x :
  (0 < x)%Q →
  (x / 2 ^ float_exponent x < 2 ^ 53)%Q
  ∧ ((-1074 < float_exponent x)%Z → (2 ^ 52 <= x / 2 ^ float_exponent x)%Q).
Proof.
  intros Hx. destruct (floor_log2_spec x Hx) as [Hlow Hhigh].
  unfold float_exponent.
  set (p := floor_log2 x) in *. set (e := Z.max (-1074) (p - 52)).
  pose proof (two_power_pos e) as He.
  split.
  - apply Qlt_shift_div_r; [done|].
    rewrite <- Qpower_plus by done.
    eapply Qlt_le_trans; [exact Hhigh|].
    apply Qpower_le_compat_l; [lia|lra].
  - intros Hnormal. apply Qle_shift_div_l; [done|].
    rewrite <- Qpower_plus by done.
    replace (52 + e)%Z with p by lia. done.
Qed.

Lemma fl_pos_nonneg x : (0 < x)%Q → (0 <= fl_pos x)%Q.
Proof.
  intros Hx. unfold fl_pos. cbn zeta. rewrite Qred_correct.
  pose proof (two_power_pos (float_exponent x)) as He.
  apply Qmult_le_0_compat; [|lra].
  change 0%Q with (inject_Z 0). rewrite <- Zle_Qle.
  etrans; [|apply round_half_even_bounds].
  change 0%Z with (Qfloor 0). apply Qfloor_resp_le.
  apply Qle_shift_div_l; [done|lra].
Qed.

Lemma fl_pos_mono x y : (0 < x)%Q → (x <= y)%Q → (fl_pos x <= fl_pos y)%Q.
Proof.
  intros Hx Hxy. assert (0 < y)%Q as Hy by lra.
  unfold fl_pos. cbn zeta. rewrite !Qred_correct.
  pose proof (floor_log2_mono x y Hx Hxy) as Hp.
  destruct (float_exponent_spec x Hx) as [Hxhigh _].
  destruct (float_exponent_spec y Hy) as [_ Hylow].
  assert (float_exponent x <= float_exponent y)%Z as He
    by (unfold float_exponent; lia).
  assert (-1074 <= float_exponent x)%Z as Hmin
    by (unfold float_exponent; lia).
  set (ex := float_exponent x) in *. set (ey := float_exponent y) in *.
  pose proof (two_power_pos ex) as Hex. pose proof (two_power_pos ey) as Hey.
  destruct (decide (ex = ey)) as [Heq|Hne].
  - rewrite <- Heq. apply Qmult_le_compat_r; [|lra].
    rewrite <- Zle_Qle. apply round_half_even_mono.
    apply Qmult_le_compat_r; [done|]. apply Qinv_le_0_compat. lra.
  - assert (ex + 1 <= ey)%Z as Hstep by lia.
    (* fl x <= 2^(53+ex) <= 2^(52+ey) <= fl y *)
    assert (inject_Z (round_half_even (x / 2 ^ ex)) <= 2 ^ 53)%Q as Hrx.
    { change (2 ^ 53)%Q with (inject_Z (2 ^ 53)). rewrite <- Zle_Qle.
      rewrite <- (round_half_even_Z (2 ^ 53)).
      apply round_half_even_mono.
      change (inject_Z (2 ^ 53)) with (2 ^ 53)%Q.
      apply Qlt_le_weak, Hxhigh. }
    assert (2 ^ 52 <= inject_Z (round_half_even (y / 2 ^ ey)))%Q as Hry.
    { change (2 ^ 52)%Q with (inject_Z (2 ^ 52)). rewrite <- Zle_Qle.
      rewrite <- (round_half_even_Z (2 ^ 52)).
      apply round_half_even_mono.
      change (inject_Z (2 ^ 52)) with (2 ^ 52)%Q. apply Hylow. lia. }
    assert (2 ^ 53 * 2 ^ ex <= 2 ^ 52 * 2 ^ ey)%Q as Hmid.
    { rewrite <- !Qpower_plus by done. apply Qpower_le_compat_l; [lia|lra]. }
    eapply Qle_trans; [apply Qmult_le_compat_r; [exact Hrx|lra]|].
    eapply Qle_trans; [exact Hmid|].
    apply Qmult_le_compat_r; [exact Hry|lra].
Qed.

Lemma fl_pos_proper x y : (0 < x)%Q → (x == y)%Q → fl_pos x = fl_pos y.
Proof.
  intros Hx Hxy. unfold fl_pos, float_exponent. cbn zeta.
  rewrite <- (floor_log2_proper x y Hx Hxy).
  apply Qred_complete.
  set (e := Z.max (-1074) (floor_log2 x - 52)).
  assert (round_half_even (x / 2 ^ e) = round_half_even (y / 2 ^ e)) as ->;
    [|reflexivity].
  apply round_half_even_proper, Qdiv_comp; [exact Hxy|reflexivity].
Qed.

Lemma fl_sign x :
  match Qnum x with
  | Z0 => (x == 0)%Q
  | Zpos _ => (0 < x)%Q
  | Zneg _ => (x < 0)%Q
  end.
Proof. destruct x as [[|n|n] d]; unfold Qeq, Qlt; simpl; lia. Qed.

#[global] Instance fl_proper : Proper (Qeq ==> eq) fl.
Proof.
  intros x y Hxy. unfold fl.
  pose proof (fl_sign x) as Hsx. pose proof (fl_sign y) as Hsy.
  destruct (Qnum x), (Qnum y); try done; try (exfalso; lra).
  - by apply fl_pos_proper.
  - f_equal. f_equal. apply fl_pos_proper; lra.
Qed.

Lemma fl_nonneg x : (0 <= x)%Q → (0 <= fl x)%Q.
Proof.
  intros Hx. unfold fl. pose proof (fl_sign x) as Hs.
  destruct (Qnum x); [lra|by apply fl_pos_nonneg|lra].
Qed.

Lemma fl_mono x y : (0 <= x)%Q → (x <= y)%Q → (fl x <= fl y)%Q.
Proof.
  intros Hx Hxy. unfold fl at 1. pose proof (fl_sign x) as Hs.
  destruct (Qnum x); [apply fl_nonneg; lra| |lra].
  unfold fl. pose proof (fl_sign y) as Hsy.
  destruct (Qnum y); [lra|by apply fl_pos_mono|lra].
Qed.


Lemma fl_0 : fl 0 = 0%Q.
Proof. reflexivity. Qed.

(** The bounds of [random.uniform(a, b)] for doubles [a <= b] whose
    difference is a double: both ends included, since the sum is rounded. *)
Lemma uniform_bounds a b r :
  (0 <= a)%Q → (a <= b)%Q →
  (fl a == a)%Q → (fl b == b)%Q → (fl (b - a) == b - a)%Q →
  unit_draw r → (a <= uniform a b r)%Q ∧ (uniform a b r <= b)%Q.
Proof.
  unfold uniform, unit_draw. intros Ha Hab Hfa Hfb Hfd [H0 H1].
  assert (fl (fl (b - a) * r) = fl ((b - a) * r)) as ->
    by (apply fl_proper; by rewrite Hfd).
  assert (0 <= fl ((b - a) * r))%Q as Hlow by (apply fl_nonneg; nra).
  assert (fl ((b - a) * r) <= b - a)%Q as Hhigh.
  { rewrite <- Hfd at 2. apply fl_mono; nra. }
  split.
  - rewrite <- Hfa at 1. apply fl_mono; lra.
  - rewrite <- Hfb at 2. apply fl_mono; lra.
Qed.


Ltac float_const := vm_compute; reflexivity.

Ltac uniform_range a b Hdraw :=
  let H := fresh "Hrange" in
  pose proof (uniform_bounds a b _ ltac:(lra) ltac:(lra) ltac:(float_const)
                ltac:(float_const) ltac:(float_const) Hdraw) as H;
  destruct H.

(** ** The page fetcher *)

(** Every attempt starts with its pacing sleep and its request. *)
Lemma fetch_page_loop_request IS_CI date page env attempt later :
  ∃ t, (fetch_page_loop IS_CI date page env (attempt :: later)).2
       = Sleep (pacing_delay IS_CI attempt (env attempt)) :: Get date page :: t.
Proof.
  simpl. destruct (fetch_page_loop IS_CI date page env later) as [r t].
  repeat case_match; simpl; eauto.
Qed.

(** A fetch of [page] sends requests for [page] only. *)
Lemma fetch_page_loop_requests IS_CI date page env attempts d p :
  Get d p ∈ (fetch_page_loop IS_CI date page env attempts).2 →
  d = date ∧ p = page.
Proof.
  induction attempts as [|attempt later IH]; simpl; [by intros ?%elem_of_nil|].
  destruct (fetch_page_loop IS_CI date page env later) as [r t].
  simpl in IH.
  assert (∀ w, Get d p ∈ Sleep (pacing_delay IS_CI attempt (env attempt))
                 :: Get date page :: Sleep w :: t → d = date ∧ p = page) as Hc.
  { intros w Hin. repeat (apply elem_of_cons in Hin as [Hin|Hin]; try done).
    - by injection Hin as -> ->.
    - by apply IH. }
  assert (Get d p ∈ [Sleep (pacing_delay IS_CI attempt (env attempt));
                     Get date page] → d = date ∧ p = page) as Hs.
  { intros Hin. repeat (apply elem_of_cons in Hin as [Hin|Hin]; try done).
    - by injection Hin as -> ->.
    - by apply elem_of_nil in Hin. }
  repeat case_match; simpl; eauto.
Qed.

(** C9.  An HTTP 4xx answer other than 403: in the constrained profile with
    attempts remaining the fetcher sleeps between 15 and 30 seconds and goes
    on with the next attempt, which sends its request; otherwise it returns
    [None] at once, the request of this attempt being its last. *)
Theorem client_error_retry_policy IS_CI date page env attempt later status json :
  answer (env attempt) = Response status json →
  (400 <= status < 500)%Z →
  status ≠ 403%Z →
  unit_draw (client_error_draw (env attempt)) →
  let request := [Sleep (pacing_delay IS_CI attempt (env attempt)); Get date page] in
  let next := fetch_page_loop IS_CI date page env later in
  if IS_CI && (attempt <? MAX_RETRIES IS_CI - 1)%nat then
    ∃ wait, (15 <= wait)%Q ∧ (wait <= 30)%Q
      ∧ fetch_page_loop IS_CI date page env (attempt :: later)
        = (next.1, request ++ Sleep wait :: next.2)
      ∧ ∀ attempt' later', later = attempt' :: later' →
          ∃ t, next.2 = Sleep (pacing_delay IS_CI attempt' (env attempt'))
                          :: Get date page :: t
  else
    fetch_page_loop IS_CI date page env (attempt :: later) = (PNone, request).
Proof.
  intros Hanswer [Hlo Hhi] H403 Hdraw request next.
  assert ((status =? 200)%Z = false) as H200 by lia.
  assert ((status =? 403)%Z = false) as H403' by lia.
  assert ((400 <=? status)%Z = true) as Hlo' by lia.
  assert ((status <? 500)%Z = true) as Hhi' by lia.
  destruct (IS_CI && (attempt <? MAX_RETRIES IS_CI - 1)%nat) eqn:Hretry.
  - apply andb_true_iff in Hretry as [-> Hleft].
    exists (uniform 15 30 (client_error_draw (env attempt))).
    uniform_range 15%Q 30%Q Hdraw.
    split; [done|]. split; [done|]. split.
    + subst next request. simpl. rewrite Hanswer, H200, H403', Hlo', Hhi'.
      simpl. simpl in Hleft. rewrite Hleft.
      by destruct (fetch_page_loop true date page env later).
    + intros attempt' later' ->. apply fetch_page_loop_request.
  - subst request. simpl. rewrite Hanswer, H200, H403', Hlo', Hhi'. simpl.
    destruct IS_CI; simpl in *; [|reflexivity].
    rewrite Hretry. reflexivity.
Qed.

Lemma client_error_retry_policy_witness :
  ∃ wait, (15 <= wait)%Q ∧ (wait <= 30)%Q
    ∧ fetch_page_loop true (u "2025-07-30") 1 (always (Response 404 None)) [0; 1; 2]
      = ((fetch_page_loop true (u "2025-07-30") 1
            (always (Response 404 None)) [1; 2]).1,
         [Sleep (pacing_delay true 0 (always (Response 404 None) 0));
          Get (u "2025-07-30") 1]
         ++ Sleep wait
            :: (fetch_page_loop true (u "2025-07-30") 1
                  (always (Response 404 None)) [1; 2]).2)
    ∧ ∀ attempt' later', [1; 2] = attempt' :: later' →
        ∃ t, (fetch_page_loop true (u "2025-07-30") 1
                (always (Response 404 None)) [1; 2]).2
             = Sleep (pacing_delay true attempt' (always (Response 404 None) attempt'))
                 :: Get (u "2025-07-30") 1 :: t.
Proof.
  apply (client_error_retry_policy true (u "2025-07-30") 1
           (always (Response 404 None)) 0 [1; 2] 404 None).
  - reflexivity.
  - lia.
  - lia.
  - split; [apply Qle_refl | reflexivity].
Defined.


Lemma rate_limit_delay_bounds (IS_CI : bool) attempt e :
  unit_draw (backoff_draw e) →
  ((if IS_CI then 30 else 5 : Q) <= rate_limit_delay IS_CI attempt e)%Q
  ∧ (rate_limit_delay IS_CI attempt e <= (if IS_CI then 120 else 30 : Q))%Q.
Proof.
  intros Hdraw. unfold rate_limit_delay. destruct IS_CI.
  - uniform_range 0%Q 30%Q Hdraw.
    assert (30 <= fl (inject_Z (30 + Z.of_nat attempt * 30)))%Q as Ha.
    { change 30%Q with (fl (inject_Z 30)) at 1.
      apply fl_mono; [done|]. rewrite <- Zle_Qle. lia. }
    split.
    + apply Q.min_glb; [|lra].
      change 30%Q with (fl 30) at 1. apply fl_mono; lra.
    + apply Q.le_min_r.
  - split.
    + apply Q.le_max_l.
    + apply Q.max_lub; [lra|]. apply Q.le_min_r.
Qed.


(** The sum is rounded: with the largest number [random()] returns, the
    jitter is below its upper end, yet the first backoff is 60 s in the
    constrained profile and 10 s in the other, which no jitter below 30 (or
    5) gives in exact arithmetic. *)
Lemma backoff_sum_is_rounded :
  let largest := (1 - (1 # 2 ^ 53))%Q in
  let e := {| pacing_draw := 0; retry_pacing_draw := 0;
              backoff_draw := largest; client_error_draw := 0;
              answer := Response 403 None |} in
  unit_draw largest
  ∧ (uniform 0 30 largest < 30)%Q ∧ rate_limit_delay true 0 e = 60%Q
  ∧ (uniform 0 5 largest < 5)%Q ∧ rate_limit_delay false 0 e = 10%Q.
Proof.
  cbn zeta. split; [split; vm_compute; [discriminate|reflexivity]|].
  repeat split; vm_compute; reflexivity.
Qed.



(** ** [asyncio.gather] *)

Section gather.
Context {A B L : Type} (run : A → result B * list L) (tasks : list A).

Lemma gather_step_raise e log order :
  (foldl (gather_step run tasks) (Raise e, log) order).1 = Raise e.
Proof. induction order as [|i order IH]; [done|]. apply IH. Qed.

(** The slots are filled in place: their number never changes. *)
Lemma gather_fold_length order slots log slots' :
  (foldl (gather_step run tasks) (Ok slots, log) order).1 = Ok slots' →
  length slots' = length slots.
Proof.
  revert slots log. induction order as [|i order IH]; intros slots log.
  - simpl. by intros [= ->].
  - simpl. unfold gather_step at 2. simpl.
    destruct (tasks !! i) as [t|]; [|apply IH].
    destruct (run t) as [[v|e] l]; simpl.
    + intros Hfold%IH. by rewrite length_insert in Hfold.
    + by rewrite gather_step_raise.
Qed.

Lemma gather_length order results :
  (gather run tasks order).1 = Ok results → length results = length tasks.
Proof.
  unfold gather.
  destruct (foldl _ _ order) as [[slots|e] log] eqn:Hfold; simpl; [|done].
  destruct (mapM id slots) as [rs|] eqn:Hm; [|done]. intros [= <-].
  apply mapM_Some, Forall2_length in Hm. rewrite <- Hm.
  rewrite (gather_fold_length order (replicate (length tasks) None) [] slots).
  - apply length_replicate.
  - by rewrite Hfold.
Qed.

(** When no task raises, the slot of every task that has completed holds
    its result, and the other slots are as they were. *)
Lemma gather_fold_slots (f : A → B) order slots log :
  (∀ t, (run t).1 = Ok (f t)) →
  ∃ slots',
    (foldl (gather_step run tasks) (Ok slots, log) order).1 = Ok slots'
    ∧ length slots' = length slots
    ∧ ∀ i,
        (i ∈ order → i < length slots → ∀ t, tasks !! i = Some t →
         slots' !! i = Some (Some (f t)))
        ∧ (i ∉ order → slots' !! i = slots !! i).
Proof.
  intros Hrun. revert slots log.
  induction order as [|i0 order IH]; intros slots log.
  - exists slots. split; [done|]. split; [done|]. intros i.
    split; [by intros ?%elem_of_nil|done].
  - simpl. unfold gather_step at 2. simpl.
    destruct (tasks !! i0) as [t0|] eqn:Ht0.
    + pose proof (Hrun t0) as Hr. destruct (run t0) as [r l]. simpl in Hr.
      subst r. simpl.
      destruct (IH (<[i0 := Some (f t0)]> slots) (log ++ l))
        as (slots' & Hfold & Hlen & Hslots).
      exists slots'. split; [done|]. rewrite length_insert in Hlen.
      split; [done|]. intros i. destruct (Hslots i) as [Hin Hout].
      destruct (decide (i ∈ order)) as [Hi|Hi].
      * split; [|by intros []%not_elem_of_cons].
        intros _ Hlt t Ht. apply Hin; [done| |done].
        by rewrite length_insert.
      * rewrite Hout by done. split.
        -- intros [->|?]%elem_of_cons Hlt t Ht; [|done].
           rewrite list_lookup_insert_eq by done. congruence.
        -- intros [Hne _]%not_elem_of_cons.
           by rewrite list_lookup_insert_ne.
    + destruct (IH slots log) as (slots' & Hfold & Hlen & Hslots).
      exists slots'. split; [done|]. split; [done|]. intros i.
      destruct (Hslots i) as [Hin Hout]. split.
      * intros [->|?]%elem_of_cons Hlt t Ht; [congruence|by apply Hin].
      * intros [_ ?]%not_elem_of_cons. by apply Hout.
Qed.

(** Whatever the order in which the tasks complete, the results come back
    in the order of the tasks. *)
Lemma gather_in_task_order (f : A → B) order :
  (∀ t, (run t).1 = Ok (f t)) →
  order ≡ₚ seq 0 (length tasks) →
  (gather run tasks order).1 = Ok (f <$> tasks).
Proof.
  intros Hrun Hperm. unfold gather.
  destruct (gather_fold_slots f order (replicate (length tasks) None) []
              Hrun) as (slots' & Hfold & Hlen & Hslots).
  destruct (foldl _ _ order) as [slots log]. simpl in Hfold. subst slots.
  simpl. rewrite length_replicate in Hlen.
  assert (slots' = Some <$> (f <$> tasks)) as ->.
  { apply list_eq. intros i. rewrite !list_lookup_fmap.
    destruct (tasks !! i) as [t|] eqn:Ht; simpl.
    - apply lookup_lt_Some in Ht as Hlt.
      apply (Hslots i); [|by rewrite length_replicate|done].
      rewrite Hperm. apply elem_of_seq. lia.
    - apply lookup_ge_None in Ht. apply lookup_ge_None. lia. }
  by rewrite mapM_fmap_Some.
Qed.
End gather.

(** ** The pagination coordinator *)

Lemma remaining_pages_ok d1 records1 meta last_page :
  default (PList []) (dict_lookup (u "data") d1) = PList records1 →
  default (PDict []) (dict_lookup (u "meta") d1) = PDict meta →
  default (PInt 1) (dict_lookup (u "last_page") meta) = PInt last_page →
  remaining_pages (PDict d1) = Ok (records1, seqZ 2 (last_page - 1)).
Proof.
  intros Hdata Hmeta Hlast. unfold remaining_pages. simpl.
  rewrite Hdata, Hmeta. simpl. rewrite Hlast. simpl.
  destruct (1 <? last_page)%Z eqn:Hmore; simpl.
  - do 3 f_equal. lia.
  - do 2 f_equal. unfold seqZ. by replace (Z.to_nat (last_page - 1)) with 0 by lia.
Qed.



(** The jobs of a run: wherever a page beyond the first is waiting, in
    flight or back, the first page of its date came back true. *)
Lemma reachable_pages IS_CI net dates s :
  reachable IS_CI net dates s →
  ∀ date page,
    (date, page) ∈ waiting s ++ in_flight s ++ (returned s).*1 →
    page = 1%Z ∨ truthy (fetch_page IS_CI date 1 (net date 1%Z)).1 = true.
Proof.
  induction 1 as [|s s' _ IH Hstep]; intros date page Hin.
  - simpl in Hin. rewrite !app_nil_r in Hin.
    apply list_elem_of_fmap in Hin as (d & [= _ ->] & _). by left.
  - destruct Hstep as [s w1 j w2 Hw _|s f1 d p f2 Hf]; simpl in Hin.
    + apply (IH date page). rewrite Hw.
      repeat (rewrite elem_of_app in Hin || rewrite elem_of_cons in Hin).
      repeat (rewrite elem_of_app || rewrite elem_of_cons). tauto.
    + rewrite fmap_app in Hin. simpl in Hin.
      repeat (rewrite elem_of_app in Hin || rewrite elem_of_cons in Hin).
      assert ((date, page) ∈ waiting s ++ in_flight s ++ (returned s).*1
              ∨ (date, page) ∈ scheduled_after d p
                  (fetch_page IS_CI d p (net d p)).1) as [Hold|Hnew].
      { rewrite Hf.
        repeat (rewrite elem_of_app || rewrite elem_of_cons).
        rewrite elem_of_nil in Hin. tauto. }
      * by apply IH.
      * unfold scheduled_after in Hnew.
        destruct (p =? 1)%Z eqn:Hp; simpl in Hnew;
          [|by apply elem_of_nil in Hnew].
        destruct (truthy _) eqn:Htrue; [|by apply elem_of_nil in Hnew].
        apply Z.eqb_eq in Hp. subst p.
        destruct (remaining_pages _) as [[? pages]|];
          [|by apply elem_of_nil in Hnew].
        apply list_elem_of_fmap in Hnew as (q & [= -> ->] & _). by right.
Qed.

(** C3.  When the fetch of page 1 returns [None], the coordinator returns
    no events, which [main] counts as a failed date, and all it has done is
    that one fetch: every request sent is for page 1.  In the run as a whole,
    in whatever order the tasks advance, no fetch of a later page of that
    date is ever waiting, in flight or back. *)
Theorem first_page_failure_fails_the_date IS_CI net date order :
  (fetch_page IS_CI date 1 (net date 1%Z)).1 = PNone →
  (fetch_all_pages_for_date IS_CI (net date) date order).1 = Ok []
  ∧ date_succeeded [] = false
  ∧ (fetch_all_pages_for_date IS_CI (net date) date order).2
    = (fetch_page IS_CI date 1 (net date 1%Z)).2
  ∧ (∀ d p, Get d p ∈ (fetch_all_pages_for_date IS_CI (net date) date order).2 →
            d = date ∧ p = 1%Z)
  ∧ ∀ dates s page,
      reachable IS_CI net dates s →
      (date, page) ∈ waiting s ++ in_flight s ++ (returned s).*1 →
      page = 1%Z.
Proof.
  intros Hnone.
  assert ((fetch_all_pages_for_date IS_CI (net date) date order)
          = (Ok [], (fetch_page IS_CI date 1 (net date 1%Z)).2)) as Hrun.
  { unfold fetch_all_pages_for_date.
    destruct (fetch_page IS_CI date 1 (net date 1%Z)) as [first log1].
    simpl in Hnone. by subst first. }
  rewrite Hrun. simpl. split; [done|]. split; [done|]. split; [done|]. split.
  - intros d p Hin. eapply fetch_page_loop_requests, Hin.
  - intros dates s page Hreach Hin.
    destruct (reachable_pages _ _ _ _ Hreach _ _ Hin) as [?|Htrue]; [done|].
    by rewrite Hnone in Htrue.
Qed.

Lemma first_page_failure_fails_the_date_witness :
  (fetch_all_pages_for_date true (λ _, always (Response 500 None))
     (u "2025-07-30") []).1 = Ok []
  ∧ date_succeeded [] = false
  ∧ (fetch_all_pages_for_date true (λ _, always (Response 500 None))
       (u "2025-07-30") []).2
    = (fetch_page true (u "2025-07-30") 1 (always (Response 500 None))).2
  ∧ (∀ d p, Get d p ∈ (fetch_all_pages_for_date true
                          (λ _, always (Response 500 None))
                          (u "2025-07-30") []).2 →
            d = u "2025-07-30" ∧ p = 1%Z)
  ∧ ∀ dates s page,
      reachable true (λ _ _, always (Response 500 None)) dates s →
      (u "2025-07-30", page) ∈ waiting s ++ in_flight s ++ (returned s).*1 →
      page = 1%Z.
Proof.
  apply (first_page_failure_fails_the_date true
           (λ _ _, always (Response 500 None)) (u "2025-07-30") []).
  vm_compute. reflexivity.
Defined.




(** A later page that arrives as a true value that is not an object is not
    skipped like a missing one: merging it raises, and the date ends with an
    exception instead of a list. *)
Lemma merge_pages_raises all_events results :
  Exists (λ data, truthy data = true ∧ ∀ d, data ≠ PDict d) results →
  ∃ e, merge_pages all_events results = Raise e.
Proof.
  intros Hbad. revert all_events.
  induction Hbad as [data later [Htrue Hshape]|data later _ IH];
    intros all_events; cbn [merge_pages].
  - rewrite Htrue. destruct data as [|b|n|f|s|l|d]; try (by eexists).
    by destruct (Hshape d).
  - destruct (truthy data); [|apply IH].
    destruct (py_get data _ _) as [page_events|]; [|by eexists].
    cbn [mbind result_bind].
    destruct (py_extend all_events page_events); [|by eexists].
    cbn [mbind result_bind]. apply IH.
Qed.

(** X17.  Page 1 arrives as an object announcing [last_page] pages, and one
    of the pages 2..last_page arrives as a true value that is not an object:
    the coordinator does not treat it as a missing page; merging it raises,
    and the date ends with an exception instead of a list of events. *)
Theorem malformed_later_page_aborts_date IS_CI net date order d1 records1 meta
    last_page p :
  let fetch := λ p, (fetch_page IS_CI date p (net p)).1 in
  fetch 1%Z = PDict d1 →
  d1 ≠ [] →
  default (PList []) (dict_lookup (u "data") d1) = PList records1 →
  default (PDict []) (dict_lookup (u "meta") d1) = PDict meta →
  default (PInt 1) (dict_lookup (u "last_page") meta) = PInt last_page →
  order ≡ₚ seq 0 (Z.to_nat (last_page - 1)) →
  (2 ≤ p ≤ last_page)%Z →
  truthy (fetch p) = true →
  (∀ d, fetch p ≠ PDict d) →
  ∃ e, (fetch_all_pages_for_date IS_CI net date order).1 = Raise e.
Proof.
  intros fetch Hfirst Hd1 Hdata Hmeta Hlast Horder Hp Htrue Hshape.
  assert (truthy (PDict d1) = true) as Hfirst_true by (by destruct d1).
  unfold fetch_all_pages_for_date. subst fetch. cbn beta in *.
  destruct (fetch_page IS_CI date 1 (net 1%Z)) as [first log1].
  cbn [fst] in Hfirst. subst first. rewrite Hfirst_true. cbn [negb].
  rewrite (remaining_pages_ok d1 records1 meta last_page) by done.
  set (run := λ p : Z, let '(r, t) := fetch_page IS_CI date p (net p) in
                       (Ok r, t)).
  pose proof (gather_in_task_order run (seqZ 2 (last_page - 1))
                (λ p, (fetch_page IS_CI date p (net p)).1) order) as Hgather.
  destruct (gather run (seqZ 2 (last_page - 1)) order) as [results log2].
  cbn [fst] in Hgather |- *. rewrite Hgather.
  - cbn [mbind result_bind]. apply merge_pages_raises.
    apply Exists_exists. exists (fetch_page IS_CI date p (net p)).1.
    split; [|done]. apply list_elem_of_fmap. exists p. split; [done|].
    apply elem_of_seqZ. lia.
  - intros q. unfold run. by destruct (fetch_page IS_CI date q (net q)).
  - by rewrite length_seqZ.
Qed.

Lemma malformed_later_page_aborts_date_witness :
  ∃ e, (fetch_all_pages_for_date true array_second_page (u "2025-07-31")
          [0]).1 = Raise e.
Proof.
  apply (malformed_later_page_aborts_date true array_second_page
           (u "2025-07-31") [0]
           [ (u "data", PList (replicate 4 sample_event));
             (u "meta", PDict [ (u "last_page", PInt 2) ]) ]
           (replicate 4 sample_event) [ (u "last_page", PInt 2) ] 2 2).
  - reflexivity.
  - discriminate.
  - vm_compute. reflexivity.
  - vm_compute. reflexivity.
  - vm_compute. reflexivity.
  - reflexivity.
  - lia.
  - vm_compute. reflexivity.
  - intros d. vm_compute. discriminate.
Defined.

(** ** The concurrency limiter *)

(** The permits left and the fetches in flight always add up to the size of
    the semaphore. *)
Lemma reachable_permits IS_CI net dates s :
  reachable IS_CI net dates s →
  permits s + length (in_flight s) = MAX_CONCURRENT_REQUESTS IS_CI.
Proof.
  induction 1 as [|s s' _ IH Hstep]; [apply Nat.add_0_r|].
  destruct Hstep as [s w1 j w2 _ Hfree|s f1 d p f2 Hf]; simpl.
  - lia.
  - rewrite Hf, length_app in IH. simpl in IH. rewrite length_app. lia.
Qed.

(** *** The coroutines under the semaphore *)

Lemma scoped_holds h c : scoped h c → holds c = h.
Proof. by destruct 1. Qed.

Lemma fetch_with_semaphore_scoped date p :
  scoped false (fetch_with_semaphore date p).
Proof. repeat constructor. Qed.

Lemma merge_and_return_scoped all_events results :
  scoped false (merge_and_return all_events results).
Proof. unfold merge_and_return. destruct (merge_pages _ _); constructor. Qed.

(** Every [fetch_page] call of [fetch_all_pages_for_date], that of page 1
    included, sits inside an [async with semaphore]. *)
Lemma fetch_all_pages_for_date_scoped date :
  scoped false (fetch_all_pages_for_date_task date).
Proof.
  constructor. constructor. intros first_page_data. constructor.
  destruct (negb (truthy first_page_data)); [constructor|].
  destruct (remaining_pages first_page_data) as [[all_events pages]|e];
    [|constructor].
  destruct pages as [|p pages]; [constructor|].
  constructor; [|apply merge_and_return_scoped].
  apply Forall_fmap, Forall_forall. intros q _.
  apply fetch_with_semaphore_scoped.
Qed.

Lemma fetch_all_dates_scoped dates : scoped false (fetch_all_dates_task dates).
Proof.
  constructor; [|constructor].
  apply Forall_fmap, Forall_forall. intros date _.
  apply fetch_all_pages_for_date_scoped.
Qed.

Lemma sum_list_with_zero {A} (f : A → nat) l :
  Forall (λ x, f x = 0) l → sum_list_with f l = 0.
Proof. induction 1 as [|x l Hx _ IH]; [done|]. simpl. lia. Qed.

Lemma sum_list_with_middle {A} (f : A → nat) before x after :
  sum_list_with f (before ++ x :: after)
  = sum_list_with f before + f x + sum_list_with f after.
Proof. rewrite sum_list_with_app. simpl. lia. Qed.

Lemma Forall_middle {A} (P : A → Prop) before x after :
  Forall P (before ++ x :: after) ↔ Forall P before ∧ P x ∧ Forall P after.
Proof. by rewrite Forall_app, Forall_cons. Qed.

(** A step keeps the tasks in their scopes, and keeps the sum of the permits
    left and the tasks inside the semaphore. *)
Lemma loop_step_invariant IS_CI net s s' :
  loop_step IS_CI net s s' →
  task_scoped s.2 →
  task_scoped s'.2 ∧ s'.1 + holding s'.2 = s.1 + holding s.2.
Proof.
  induction 1 as [n k Hfree|n k|n date page k|n date page k|n v|n e
                  |n tasks k|n results k|n children k e child Hin Hraised
                  |n n' before child child' after k Hstep IH
                  |n n' e before child child' after Hstep IH
                  |n c|n date page k];
    cbn [fst snd]; intros Hscoped.
  - inversion Hscoped as [c Hc| | | |]; subst.
    inversion Hc as [| |k' Hk| | |]; subst.
    split; [constructor; by rewrite (scoped_holds _ _ Hk)|].
    cbn [holding holds]. rewrite (scoped_holds _ _ Hk). lia.
  - inversion Hscoped as [c Hc| | | |]; subst.
    inversion Hc as [| | |k' Hk| |]; subst.
    split; [constructor; by rewrite (scoped_holds _ _ Hk)|].
    cbn [holding holds]. rewrite (scoped_holds _ _ Hk). lia.
  - inversion Hscoped as [c Hc| | | |]; subst.
    inversion Hc as [| | | |d p k' Hk|]; subst.
    split; [by constructor|done].
  - inversion Hscoped as [|d p k' Hk| | |]; subst.
    split; [constructor; by rewrite (scoped_holds _ _ (Hk _))|].
    cbn [holding]. by rewrite (scoped_holds _ _ (Hk _)).
  - split; [constructor|done].
  - split; [constructor|done].
  - inversion Hscoped as [c Hc| | | |]; subst.
    inversion Hc as [| | | | |ts k' Hts Hk]; subst.
    split.
    + constructor; [|done]. apply Forall_fmap.
      eapply Forall_impl; [exact Hts|]. intros c Hc'. constructor.
      by rewrite (scoped_holds _ _ Hc').
    + cbn [holding holds]. rewrite sum_list_with_zero; [done|].
      apply Forall_fmap. eapply Forall_impl; [exact Hts|].
      intros c Hc'. unfold compose. cbn [holding].
      by rewrite (scoped_holds _ _ Hc').
  - inversion Hscoped as [| |cs k' Hcs Hk| |]; subst.
    split; [constructor; by rewrite (scoped_holds _ _ (Hk _))|].
    cbn [holding]. rewrite (scoped_holds _ _ (Hk _)).
    rewrite sum_list_with_zero; [done|].
    apply Forall_fmap, Forall_forall. by intros v _.
  - inversion Hscoped as [| |cs k' Hcs Hk| |]; subst.
    split; [by constructor|done].
  - inversion Hscoped as [| |cs k' Hcs Hk| |]; subst.
    apply Forall_middle in Hcs as (Hbefore & Hchild & Hafter).
    destruct (IH Hchild) as [Hchild' Hsum]. cbn [fst snd] in Hsum.
    split.
    + constructor; [|done]. by apply Forall_middle.
    + cbn [holding]. rewrite !sum_list_with_middle. lia.
  - inversion Hscoped as [| | | |e' cs Hcs]; subst.
    apply Forall_middle in Hcs as (Hbefore & Hchild & Hafter).
    destruct (IH Hchild) as [Hchild' Hsum]. cbn [fst snd] in Hsum.
    split.
    + constructor. by apply Forall_middle.
    + cbn [holding]. rewrite !sum_list_with_middle. lia.
  - split; [constructor|]. cbn [holding]. lia.
  - split; [constructor|]. cbn [holding]. lia.
Qed.

Lemma loop_reachable_invariant IS_CI net dates s :
  loop_reachable IS_CI net dates s →
  task_scoped s.2 ∧ s.1 + holding s.2 = MAX_CONCURRENT_REQUESTS IS_CI.
Proof.
  induction 1 as [|s s' _ [Hscoped Hsum] Hstep].
  - split; [|cbn; lia]. constructor. apply fetch_all_dates_scoped.
  - destruct (loop_step_invariant _ _ _ _ Hstep Hscoped) as [Hscoped' Hsum'].
    split; [done|lia].
Qed.

(** A task inside [fetch_page] holds the semaphore. *)
Fixpoint fetching_holding (t : task) : fetching t ≤ holding t :=
  match t with
  | Ready c => Nat.le_0_l _
  | Fetching _ _ _ => le_n 1
  | Gathering children _ =>
      (fix all (l : list task)
         : sum_list_with fetching l ≤ sum_list_with holding l :=
         match l with
         | [] => le_n 0
         | c :: l' => Nat.add_le_mono _ _ _ _ (fetching_holding c) (all l')
         end) children
  | Finished _ => le_n 0
  | Abandoned _ children =>
      (fix all (l : list task)
         : sum_list_with fetching l ≤ sum_list_with holding l :=
         match l with
         | [] => le_n 0
         | c :: l' => Nat.add_le_mono _ _ _ _ (fetching_holding c) (all l')
         end) children
  end.

(** C5.  In every state the event loop can reach while it runs
    [fetch_all_dates], whatever the dates, the answers and the order in
    which the tasks run, at most [MAX_CONCURRENT_REQUESTS] tasks are inside
    [fetch_page].  The count is over the tasks of all dates together, those
    of the first pages included: each of them is inside an [async with] of
    the one semaphore, whose permits left and holders always add up to
    [MAX_CONCURRENT_REQUESTS]. *)
Theorem in_flight_bounded IS_CI net dates s :
  loop_reachable IS_CI net dates s →
  fetching s.2 ≤ MAX_CONCURRENT_REQUESTS IS_CI
  ∧ fetching s.2 ≤ holding s.2
  ∧ s.1 + holding s.2 = MAX_CONCURRENT_REQUESTS IS_CI
  ∧ task_scoped s.2.
Proof.
  intros Hreach.
  destruct (loop_reachable_invariant _ _ _ _ Hreach) as [Hscoped Hsum].
  pose proof (fetching_holding s.2) as Hle.
  split; [lia|]. split; [done|]. by split.
Qed.

Lemma first_fetch_in_flight_reachable net :
  loop_reachable true net EVENT_DATES first_fetch_in_flight.
Proof.
  eapply loop_next; [eapply loop_next; [eapply loop_next; [apply loop_start|]|]|].
  - apply step_gather.
  - apply (step_child true net 1 0 []
             (Ready (fetch_all_pages_for_date_task (u "2025-07-30")))
             (Ready (AwaitFetch (u "2025-07-30") 1
                       (after_first_page (u "2025-07-30"))))).
    apply (step_enter true net 1). lia.
  - apply (step_child true net 0 0 []). apply step_call.
Qed.

Lemma in_flight_bounded_witness :
  fetching first_fetch_in_flight.2 = 1
  ∧ fetching first_fetch_in_flight.2 ≤ MAX_CONCURRENT_REQUESTS true
  ∧ fetching first_fetch_in_flight.2 ≤ holding first_fetch_in_flight.2
  ∧ first_fetch_in_flight.1 + holding first_fetch_in_flight.2
    = MAX_CONCURRENT_REQUESTS true
  ∧ task_scoped first_fetch_in_flight.2.
Proof.
  split; [reflexivity|].
  apply (in_flight_bounded true dead_network EVENT_DATES first_fetch_in_flight).
  apply first_fetch_in_flight_reachable.
Defined.

(** ** Record normalisation *)

Lemma dict_lookup_set_eq {V} k (v : V) d :
  dict_lookup k (dict_set k v d) = Some v.
Proof.
  induction d as [|[k' v'] d IH]; simpl.
  - by rewrite decide_True.
  - destruct (decide (k' = k)) as [->|Hne]; simpl.
    + by rewrite decide_True.
    + by rewrite decide_False.
Qed.

Lemma dict_lookup_set_ne {V} k k' (v : V) d :
  k ≠ k' → dict_lookup k' (dict_set k v d) = dict_lookup k' d.
Proof.
  intros Hne. induction d as [|[k0 v0] d IH]; simpl.
  - by rewrite decide_False.
  - destruct (decide (k0 = k)) as [->|Hne0]; simpl.
    + by rewrite !decide_False.
    + by rewrite IH.
Qed.

Lemma dict_keys_set {V} k (v : V) d :
  dict_keys (dict_set k v d)
  = dict_keys d ++ (if decide (k ∈ dict_keys d) then [] else [k]).
Proof.
  unfold dict_keys. induction d as [|[k0 v0] d IH].
  - simpl. destruct (decide (k ∈ [])) as [Hin|_]; [|done].
    by apply elem_of_nil in Hin.
  - cbn [dict_set]. destruct (decide (k0 = k)) as [->|Hne0].
    + rewrite !fmap_cons. cbn [fst].
      destruct (decide (k ∈ k :: d.*1)) as [_|Hout]; [by rewrite app_nil_r|].
      exfalso. apply Hout. by left.
    + rewrite !fmap_cons. cbn [fst]. rewrite IH.
      rewrite <- app_comm_cons. f_equal. f_equal.
      destruct (decide (k ∈ d.*1)) as [Hin|Hout];
        destruct (decide (k ∈ k0 :: d.*1)) as [Hin'|Hout']; try done.
      * exfalso. apply Hout'. by right.
      * apply elem_of_cons in Hin' as [?|?]; congruence.
Qed.

Lemma normalize_and_locate_place_ok cache place :
  place_ok place = true →
  ∃ loc cache', normalize_and_locate cache place = Ok (loc, cache').
Proof.
  intros Hok. unfold normalize_and_locate.
  destruct (negb (truthy place)) eqn:Hfalse; [eauto|].
  destruct place as [| | | |s| |]; try (simpl in *; congruence).
  destruct (cache !! s); eauto.
Qed.

Lemma location_keys_differ : u "filterLocation" ≠ u "nearLocation".
Proof. vm_compute. discriminate. Qed.

(** What the two assignments do to one record. *)
Lemma location_fields_set (d : pydict) (filter_location near_location : pyval) :
  let d' := dict_set (u "nearLocation") near_location
              (dict_set (u "filterLocation") filter_location d) in
  dict_lookup (u "filterLocation") d' = Some filter_location
  ∧ dict_lookup (u "nearLocation") d' = Some near_location
  ∧ (∀ k, k ≠ u "filterLocation" → k ≠ u "nearLocation" →
          dict_lookup k d' = dict_lookup k d)
  ∧ (∀ k, k ∈ dict_keys d'
          ↔ k ∈ dict_keys d ∨ k = u "filterLocation" ∨ k = u "nearLocation")
  ∧ dict_keys d `prefix_of` dict_keys d'.
Proof.
  intros d'. subst d'. pose proof location_keys_differ as Hne.
  split; [|split; [|split; [|split]]].
  - rewrite dict_lookup_set_ne by done. apply dict_lookup_set_eq.
  - apply dict_lookup_set_eq.
  - intros k Hf Hn. by rewrite !dict_lookup_set_ne.
  - intros k. rewrite !dict_keys_set.
    repeat (rewrite elem_of_app).
    repeat destruct (decide _) as [?|?];
      rewrite ?elem_of_nil, ?list_elem_of_singleton;
      repeat (rewrite elem_of_app in * );
      rewrite ?elem_of_nil, ?list_elem_of_singleton in *;
      split; intros; destruct_or?; subst; tauto.
  - rewrite !dict_keys_set, <- app_assoc. by eexists.
Qed.

Lemma process_events_record cache d later loc cache1 later' cache2 :
  normalize_and_locate cache (default (PStr []) (dict_lookup (u "place") d))
  = Ok (loc, cache1) →
  process_events cache1 later = Ok (later', cache2) →
  process_events cache (PDict d :: later)
  = Ok (PDict (dict_set (u "nearLocation") loc.2
                 (dict_set (u "filterLocation") loc.1 d)) :: later',
        cache2).
Proof. intros Hloc Hlater. simpl. rewrite Hloc. simpl. by rewrite Hlater. Qed.

(** The pair [normalize_and_locate] returns: the sentinel pair for a place
    that is false, and what the rules give for a string, also when it comes
    from the cache. *)
Lemma normalize_and_locate_value cache place loc cache' :
  normalize_and_locate cache place = Ok (loc, cache') →
  (truthy place = false → loc = (PStr (u "Other"), PStr (u "Other")))
  ∧ (cache_reachable cache → ∀ s, place = PStr s → s ≠ [] → loc = locate s).
Proof.
  intros Hcall. split.
  - intros Hfalse. unfold normalize_and_locate in Hcall.
    rewrite Hfalse in Hcall. cbn [negb] in Hcall. by injection Hcall as <- _.
  - intros Hcache s -> Hs.
    pose proof (classify_reachable cache s Hcache Hs) as Hclass.
    unfold classify in Hclass. rewrite Hcall in Hclass. by injection Hclass.
Qed.

(** X3.  On raw records, [process_events] returns as many records as it was
    given, in the same order; the record at each position is the one given at
    that position with [filterLocation] and [nearLocation] set to the pair
    [normalize_and_locate] returns for its place on the cache left by the
    records before it: the sentinel pair for a place that is absent or
    false, and for a string what the rules give, when the cache holds
    nothing but what [normalize_and_locate] stored.  Every other field keeps
    its value, the fields already there keep their order, and no field other
    than these two is added or removed. *)
Theorem process_events_frame cache events :
  Forall (λ event, raw_record event = true) events →
  ∃ events' cache',
    process_events cache events = Ok (events', cache')
    ∧ length events' = length events
    ∧ ∀ i event, events !! i = Some event →
        ∃ d d' place loc c c',
          event = PDict d
          ∧ events' !! i = Some (PDict d')
          ∧ py_get event (u "place") (PStr []) = Ok place
          ∧ process_events cache (take i events) = Ok (take i events', c)
          ∧ normalize_and_locate c place = Ok (loc, c')
          ∧ (truthy place = false
             → loc = (PStr (u "Other"), PStr (u "Other")))
          ∧ (cache_reachable cache →
             ∀ s, place = PStr s → s ≠ [] → loc = locate s)
          ∧ dict_lookup (u "filterLocation") d' = Some loc.1
          ∧ dict_lookup (u "nearLocation") d' = Some loc.2
          ∧ (∀ k, k ≠ u "filterLocation" → k ≠ u "nearLocation" →
                  dict_lookup k d' = dict_lookup k d)
          ∧ (∀ k, k ∈ dict_keys d'
                  ↔ k ∈ dict_keys d ∨ k = u "filterLocation"
                    ∨ k = u "nearLocation")
          ∧ dict_keys d `prefix_of` dict_keys d'.
Proof.
  intros Hraw. revert cache.
  induction Hraw as [|event later Hevent _ IH]; intros cache.
  - exists [], cache. split; [done|]. split; [done|].
    intros i event Hi. by rewrite lookup_nil in Hi.
  - destruct event as [|b|n|f|s|l|d]; try discriminate.
    cbn [raw_record] in Hevent.
    destruct (normalize_and_locate_place_ok cache _ Hevent)
      as (loc & cache1 & Hloc).
    destruct (IH cache1) as (later' & cache2 & Hlater & Hlen & Hrest).
    eexists _, cache2.
    split; [exact (process_events_record _ _ _ _ _ _ _ Hloc Hlater)|].
    split; [cbn [length]; by rewrite Hlen|].
    intros [|i] ev Hi.
    + injection Hi as <-.
      destruct (location_fields_set d loc.1 loc.2) as (Hf & Hn & Hk & Hd & Hp).
      destruct (normalize_and_locate_value _ _ _ _ Hloc) as [Hfalse Hrule].
      by eexists d, _, _, loc, cache, cache1.
    + destruct (Hrest i ev Hi)
        as (d0 & d' & place & loc0 & c & c' & -> & Hi' & Hplace & Hbefore
            & Hcall & Hfalse & Hrule & Hfields).
      exists d0, d', place, loc0, c, c'.
      split; [done|]. split; [done|]. split; [done|].
      split.
      { cbn [take]. exact (process_events_record _ _ _ _ _ _ _ Hloc Hbefore). }
      split; [done|]. split; [done|]. split; [|done].
      intros Hcache. apply Hrule. by eapply cache_call.
Qed.

Lemma process_events_frame_witness :
  ∃ events' cache',
    process_events ∅ [sample_event; PDict [(u "nearLocation", PInt 3)]]
    = Ok (events', cache')
    ∧ length events'
      = length [sample_event; PDict [(u "nearLocation", PInt 3)]]
    ∧ ∀ i event,
        [sample_event; PDict [(u "nearLocation", PInt 3)]] !! i = Some event →
        ∃ d d' place loc c c',
          event = PDict d
          ∧ events' !! i = Some (PDict d')
          ∧ py_get event (u "place") (PStr []) = Ok place
          ∧ process_events ∅
              (take i [sample_event; PDict [(u "nearLocation", PInt 3)]])
            = Ok (take i events', c)
          ∧ normalize_and_locate c place = Ok (loc, c')
          ∧ (truthy place = false
             → loc = (PStr (u "Other"), PStr (u "Other")))
          ∧ (cache_reachable ∅ →
             ∀ s, place = PStr s → s ≠ [] → loc = locate s)
          ∧ dict_lookup (u "filterLocation") d' = Some loc.1
          ∧ dict_lookup (u "nearLocation") d' = Some loc.2
          ∧ (∀ k, k ≠ u "filterLocation" → k ≠ u "nearLocation" →
                  dict_lookup k d' = dict_lookup k d)
          ∧ (∀ k, k ∈ dict_keys d'
                  ↔ k ∈ dict_keys d ∨ k = u "filterLocation"
                    ∨ k = u "nearLocation")
          ∧ dict_keys d `prefix_of` dict_keys d'.
Proof.
  apply (process_events_frame ∅
           [sample_event; PDict [(u "nearLocation", PInt 3)]]).
  repeat constructor.
Defined.

(** [process_events] succeeds on raw records and keeps their number. *)
Lemma process_events_total cache events :
  Forall (λ event, raw_record event = true) events →
  ∃ events' cache',
    process_events cache events = Ok (events', cache')
    ∧ length events' = length events.
Proof.
  intros Hraw. revert cache.
  induction Hraw as [|event later Hevent _ IH]; intros cache.
  - by exists [], cache.
  - destruct event as [| | | | | |d]; try discriminate. simpl in Hevent.
    destruct (normalize_and_locate_place_ok cache _ Hevent)
      as (loc & cache1 & Hloc).
    destruct (IH cache1) as (later' & cache2 & Hlater & Hlen).
    eexists _, cache2.
    split; [exact (process_events_record _ _ _ _ _ _ _ Hloc Hlater)|].
    simpl. by rewrite Hlen.
Qed.

(** ** The orchestrator's mapping of dates to events *)

Lemma dict_set_fresh {V} k (v : V) d :
  k ∉ dict_keys d → dict_set k v d = d ++ [(k, v)].
Proof.
  unfold dict_keys. induction d as [|[k0 v0] d IH]; [done|].
  rewrite fmap_cons. cbn [fst dict_set]. intros [Hne Hout]%not_elem_of_cons.
  rewrite decide_False by done. by rewrite IH.
Qed.

Lemma all_results_zip {V} dates (results : list V) acc :
  NoDup (dict_keys acc ++ dates) →
  length results = length dates →
  foldl (λ all_results '(date, events), dict_set date events all_results)
        acc (zip dates results)
  = acc ++ zip dates results.
Proof.
  revert results acc.
  induction dates as [|date dates IH]; intros results acc Hnodup Hlen.
  - simpl. by rewrite app_nil_r.
  - destruct results as [|events results]; [done|]. simpl.
    apply NoDup_app in Hnodup as (Hacc & Hdisj & [Hdate Hdates]%NoDup_cons).
    rewrite dict_set_fresh.
    + rewrite IH.
      * by rewrite <- app_assoc.
      * unfold dict_keys. rewrite fmap_app. simpl. rewrite <- app_assoc.
        simpl. apply NoDup_app. split; [done|]. split.
        -- intros k Hk. apply Hdisj in Hk. done.
        -- by apply NoDup_cons.
      * simpl in Hlen. lia.
    + intros Hin. apply (Hdisj _ Hin). by left.
Qed.

(** The mapping [fetch_all_dates] returns has one entry per date, in the
    order of the dates. *)
Lemma fetch_all_dates_keys IS_CI net sched dates all_events :
  NoDup dates →
  (fetch_all_dates IS_CI net sched dates).1 = Ok all_events →
  dict_keys all_events = dates.
Proof.
  intros Hnodup. unfold fetch_all_dates.
  destruct (gather _ dates (date_order sched)) as [results log] eqn:Hgather.
  destruct results as [results|e]; simpl; [|done]. intros [= <-].
  assert (length results = length dates) as Hlen.
  { eapply gather_length. by rewrite Hgather. }
  rewrite (all_results_zip dates results []) by done.
  simpl. unfold dict_keys. by rewrite fst_zip by lia.
Qed.

Lemma EVENT_DATES_NoDup : NoDup EVENT_DATES.
Proof. apply (bool_decide_unpack _). vm_compute. exact I. Qed.

(** ** The summary *)

(** When no date has events, the loop of [main] saves nothing and lists
    every date as failed. *)
Lemma process_results_all_failed clk items t :
  Forall (λ item, date_succeeded item.2 = false) items →
  process_results clk items t
  = Ok {| total_events := total_events t;
          successful_dates := successful_dates t;
          failed_dates := failed_dates t ++ dict_keys items;
          files := files t;
          cache_of := cache_of t |}.
Proof.
  intros Hfailed. revert t.
  induction Hfailed as [|[date events] later Hitem _ IH]; intros t.
  - simpl. rewrite app_nil_r. by destruct t.
  - simpl in Hitem. cbn [process_results]. unfold date_succeeded in Hitem.
    rewrite Hitem, IH. simpl. by rewrite <- app_assoc.
Qed.

(** *** Records that can be written *)









Ltac dict_lookup_key :=
  repeat (cbn [dict_lookup];
          first [ rewrite decide_True by reflexivity
                | rewrite decide_False by (vm_compute; discriminate) ]).

(** X1.  A run in which no date has events: [main] writes no event file, and
    the summary takes [scraping_completed], [total_events], [successful_dates]
    and [files_created] from the summary loaded at start-up (["Never"], 0, 0
    and [[]] where it has none), lists every date of [EVENT_DATES] as failed,
    stamps [last_failed_attempt] with the time of this run and holds the
    loaded [consecutive_failures] (0 if none) plus one. *)
Theorem failed_run_keeps_prior_summary IS_CI net sched clk summary_file
    prior all_events n :
  (fetch_all_dates IS_CI net sched EVENT_DATES).1 = Ok all_events →
  Forall (λ item, date_succeeded item.2 = false) all_events →
  load_existing_summary summary_file = PDict prior →
  default (PInt 0) (dict_lookup (u "consecutive_failures") prior) = PInt n →
  ∃ summary,
    main IS_CI net sched clk summary_file = Ok (PDict summary, [])
    ∧ dict_lookup (u "scraping_completed") summary
      = Some (default (PStr (u "Never"))
                (dict_lookup (u "scraping_completed") prior))
    ∧ dict_lookup (u "total_events") summary
      = Some (default (PInt 0) (dict_lookup (u "total_events") prior))
    ∧ dict_lookup (u "successful_dates") summary
      = Some (default (PInt 0) (dict_lookup (u "successful_dates") prior))
    ∧ dict_lookup (u "files_created") summary
      = Some (default (PList []) (dict_lookup (u "files_created") prior))
    ∧ dict_lookup (u "failed_dates") summary
      = Some (PList (PStr <$> EVENT_DATES))
    ∧ dict_lookup (u "last_failed_attempt") summary
      = Some (PStr (brt_now clk))
    ∧ dict_lookup (u "consecutive_failures") summary = Some (PInt (n + 1)).
Proof.
  intros Hfetch Hfailed Hload Hcount.
  pose proof (fetch_all_dates_keys _ _ _ _ _ EVENT_DATES_NoDup Hfetch) as Hkeys.
  eexists. split.
  - unfold main. rewrite Hfetch, Hload. cbn [mbind result_bind].
    rewrite (process_results_all_failed clk all_events no_results Hfailed).
    cbn [mbind result_bind]. unfold summary_data.
    cbn [successful_dates failed_dates files no_results Z.ltb Z.compare
           py_get mbind result_bind app].
    rewrite Hcount, Hkeys. cbn [py_succ mbind result_bind]. reflexivity.
  - repeat split; dict_lookup_key; reflexivity.
Qed.

Lemma failed_run_keeps_prior_summary_witness :
  ∃ summary,
    main true dead_network sample_schedule sample_clock
      (Some (Some (PDict [ (u "total_events", PInt 77);
                           (u "consecutive_failures", PInt 4) ])))
    = Ok (PDict summary, [])
    ∧ dict_lookup (u "scraping_completed") summary
      = Some (default (PStr (u "Never"))
                (dict_lookup (u "scraping_completed")
                   [ (u "total_events", PInt 77);
                     (u "consecutive_failures", PInt 4) ]))
    ∧ dict_lookup (u "total_events") summary
      = Some (default (PInt 0)
                (dict_lookup (u "total_events")
                   [ (u "total_events", PInt 77);
                     (u "consecutive_failures", PInt 4) ]))
    ∧ dict_lookup (u "successful_dates") summary
      = Some (default (PInt 0)
                (dict_lookup (u "successful_dates")
                   [ (u "total_events", PInt 77);
                     (u "consecutive_failures", PInt 4) ]))
    ∧ dict_lookup (u "files_created") summary
      = Some (default (PList [])
                (dict_lookup (u "files_created")
                   [ (u "total_events", PInt 77);
                     (u "consecutive_failures", PInt 4) ]))
    ∧ dict_lookup (u "failed_dates") summary
      = Some (PList (PStr <$> EVENT_DATES))
    ∧ dict_lookup (u "last_failed_attempt") summary
      = Some (PStr (brt_now sample_clock))
    ∧ dict_lookup (u "consecutive_failures") summary = Some (PInt (4 + 1)).
Proof.
  apply (failed_run_keeps_prior_summary true dead_network sample_schedule
           sample_clock _ _ ((λ date, (date, [])) <$> EVENT_DATES) 4).
  - vm_compute. reflexivity.
  - repeat constructor.
  - reflexivity.
  - vm_compute. reflexivity.
Defined.

Lemma filter_succeeded_nonempty (items : list (pystr * list pyval)) :
  Exists (λ item, date_succeeded item.2 = true) items →
  0 < length (filter (λ item, date_succeeded item.2 = true) items).
Proof.
  induction 1 as [item items Hitem|item items _ IH].
  - rewrite filter_cons_True by done. simpl. lia.
  - destruct (decide (date_succeeded item.2 = true)).
    + rewrite filter_cons_True by done. simpl. lia.
    + by rewrite filter_cons_False.
Qed.




(** ** More on the page fetcher *)

Lemma fetch_page_loop_sound IS_CI date page env attempts :
  let r := (fetch_page_loop IS_CI date page env attempts).1 in
  r = PNone
  ∨ ∃ attempt, attempt ∈ attempts
               ∧ answer (env attempt) = Response 200 (Some r).
Proof.
  induction attempts as [|attempt later IH]; [by left|].
  cbn zeta in *. simpl.
  destruct (fetch_page_loop IS_CI date page env later) as [r t].
  simpl in IH.
  assert (r = PNone
          ∨ ∃ a, a ∈ attempt :: later
                 ∧ answer (env a) = Response 200 (Some r)) as Hlater.
  { destruct IH as [?|(a & Ha & Hanswer)]; [by left|right].
    exists a. split; [by right|done]. }
  destruct (answer (env attempt)) as [status json| |] eqn:Hanswer.
  - destruct (status =? 200)%Z eqn:H200.
    + apply Z.eqb_eq in H200. subst status.
      destruct json as [body|].
      * right. exists attempt. split; [by left|done].
      * destruct (attempt <? MAX_RETRIES IS_CI - 1)%nat; simpl; eauto.
    + repeat case_match; simpl; eauto.
  - destruct (attempt <? MAX_RETRIES IS_CI - 1)%nat; simpl; eauto.
  - destruct (attempt <? MAX_RETRIES IS_CI - 1)%nat; simpl; eauto.
Qed.

(** X4.  What [fetch_page] returns is [None] or the body of an HTTP 200
    answer that one of its [MAX_RETRIES] attempts received: it never makes up
    data, and no answer with another status yields any. *)
Theorem fetch_page_returns_a_received_body IS_CI date page env :
  let r := (fetch_page IS_CI date page env).1 in
  r = PNone
  ∨ ∃ attempt, attempt < MAX_RETRIES IS_CI
               ∧ answer (env attempt) = Response 200 (Some r).
Proof.
  cbn zeta. unfold fetch_page.
  destruct (fetch_page_loop_sound IS_CI date page env
              (seq 0 (MAX_RETRIES IS_CI))) as [?|(a & Ha & Hanswer)];
    [by left|right].
  exists a. split; [|done]. apply elem_of_seq in Ha. lia.
Qed.

Lemma requests_sleep seconds t : requests (Sleep seconds :: t) = requests t.
Proof. reflexivity. Qed.

Lemma requests_get date page t :
  requests (Get date page :: t) = Get date page :: requests t.
Proof. reflexivity. Qed.

Lemma fetch_page_loop_budget IS_CI date page env attempts :
  length (requests (fetch_page_loop IS_CI date page env attempts).2)
  ≤ length attempts.
Proof.
  induction attempts as [|attempt later IH]; [done|].
  simpl. destruct (fetch_page_loop IS_CI date page env later) as [r t].
  simpl in IH.
  repeat case_match; simplify_eq/=;
    rewrite ?requests_sleep, ?requests_get, ?requests_sleep; simpl;
    rewrite ?requests_sleep; simpl; lia.
Qed.

(** X5.  A call of [fetch_page] sends at least one request and at most
    [MAX_RETRIES] (3 in CI, 5 locally), all of them for its own date and
    page. *)
Theorem fetch_page_request_budget IS_CI date page env :
  let sent := requests (fetch_page IS_CI date page env).2 in
  1 ≤ length sent
  ∧ length sent ≤ MAX_RETRIES IS_CI
  ∧ length sent ≤ 5
  ∧ Forall (λ a, a = Get date page) sent.
Proof.
  cbn zeta. unfold fetch_page. split; [|split; [|split]].
  - assert (∃ n, MAX_RETRIES IS_CI = S n) as [n ->]
      by (destruct IS_CI; eauto).
    destruct (fetch_page_loop_request IS_CI date page env 0 (seq 1 n))
      as [t Ht].
    cbn [seq]. rewrite Ht, requests_sleep, requests_get. simpl. lia.
  - etransitivity; [apply fetch_page_loop_budget|]. by rewrite length_seq.
  - etransitivity; [apply fetch_page_loop_budget|]. rewrite length_seq.
    destruct IS_CI; simpl; lia.
  - apply Forall_forall. intros a [Hreq Hin]%list_elem_of_filter.
    destruct a as [|d p]; [done|].
    by destruct (fetch_page_loop_requests _ _ _ _ _ _ _ Hin) as [-> ->].
Qed.

(** X6.  A timeout, any other exception, or an HTTP 200 whose body cannot be
    parsed: with attempts remaining the fetcher sleeps [RETRY_DELAY] seconds,
    doubled in CI (40 s in CI, 5 s locally), and goes on with the next
    attempt; at the last attempt it returns [None] at once. *)
Theorem error_retry_policy IS_CI date page env attempt later :
  answer (env attempt) = Timeout
  ∨ answer (env attempt) = Failure
  ∨ answer (env attempt) = Response 200 None →
  let request := [Sleep (pacing_delay IS_CI attempt (env attempt)); Get date page] in
  let next := fetch_page_loop IS_CI date page env later in
  if (attempt <? MAX_RETRIES IS_CI - 1)%nat then
    fetch_page_loop IS_CI date page env (attempt :: later)
    = (next.1, request ++ Sleep (error_delay IS_CI) :: next.2)
    ∧ error_delay IS_CI = (if IS_CI then 40%Q else 5%Q)
  else
    fetch_page_loop IS_CI date page env (attempt :: later) = (PNone, request).
Proof.
  intros Hanswer request next. subst request next.
  assert (fetch_page_loop IS_CI date page env (attempt :: later)
          = if (attempt <? MAX_RETRIES IS_CI - 1)%nat
            then ((fetch_page_loop IS_CI date page env later).1,
                  [Sleep (pacing_delay IS_CI attempt (env attempt));
                   Get date page]
                  ++ Sleep (error_delay IS_CI)
                     :: (fetch_page_loop IS_CI date page env later).2)
            else (PNone,
                  [Sleep (pacing_delay IS_CI attempt (env attempt));
                   Get date page])) as ->.
  { simpl. destruct (fetch_page_loop IS_CI date page env later) as [r t].
    by destruct Hanswer as [-> | [-> | ->]]. }
  destruct (attempt <? MAX_RETRIES IS_CI - 1)%nat; [|done].
  split; [done|]. by destruct IS_CI.
Qed.

Lemma error_retry_policy_witness :
  fetch_page_loop true (u "2025-07-30") 1 (always Timeout) [0; 1; 2]
  = ((fetch_page_loop true (u "2025-07-30") 1 (always Timeout) [1; 2]).1,
     [Sleep (pacing_delay true 0 (always Timeout 0)); Get (u "2025-07-30") 1]
     ++ Sleep (error_delay true)
        :: (fetch_page_loop true (u "2025-07-30") 1 (always Timeout) [1; 2]).2)
  ∧ error_delay true = 40%Q.
Proof.
  apply (error_retry_policy true (u "2025-07-30") 1 (always Timeout) 0 [1; 2]).
  by left.
Defined.

Lemma fetch_page_loop_last IS_CI date page env k :
  ∀ a, a + S k = MAX_RETRIES IS_CI →
  last (fetch_page_loop IS_CI date page env (seq a (S k))).2
  = Some (Get date page).
Proof.
  induction k as [|k IH]; intros a Ha.
  - assert ((a <? MAX_RETRIES IS_CI - 1)%nat = false) as Hlast
      by (apply Nat.ltb_ge; lia).
    cbn [seq fetch_page_loop]. rewrite Hlast.
    repeat case_match; try done;
      match goal with H : _ && false = true |- _ =>
        by rewrite andb_false_r in H
      end.
  - pose proof (IH (S a) ltac:(lia)) as Hnext.
    change (seq a (S (S k))) with (a :: seq (S a) (S k)).
    cbn [fetch_page_loop].
    destruct (fetch_page_loop IS_CI date page env (seq (S a) (S k)))
      as [r t].
    cbn [snd] in Hnext.
    assert (∀ w, last ([Sleep (pacing_delay IS_CI a (env a)); Get date page]
                       ++ Sleep w :: t) = Some (Get date page)) as Hgo.
    { intros w. simpl. destruct t as [|x t]; [done|].
      by rewrite !last_cons_cons in *. }
    repeat case_match; simplify_eq/=; try done; apply Hgo.
Qed.

(** X7.  The last thing [fetch_page] does before it returns is a request:
    it never sleeps after its last attempt, whether that attempt succeeded,
    failed or was rate-limited. *)
Theorem fetch_page_ends_with_request IS_CI date page env :
  last (fetch_page IS_CI date page env).2 = Some (Get date page).
Proof.
  unfold fetch_page.
  assert (∃ k, MAX_RETRIES IS_CI = S k) as [k Hk] by (destruct IS_CI; eauto).
  rewrite Hk. apply fetch_page_loop_last. lia.
Qed.

(** ** The time a fetch spends asleep *)

(** One turn of the loop: the attempt returns after its request, or it
    sleeps one of the three retry delays and the loop goes on, which it only
    does before the last attempt. *)
Lemma fetch_page_loop_turn IS_CI date page env attempt later :
  let request := [Sleep (pacing_delay IS_CI attempt (env attempt)); Get date page] in
  (fetch_page_loop IS_CI date page env (attempt :: later)).2 = request
  ∨ ∃ wait,
      (attempt <? MAX_RETRIES IS_CI - 1)%nat = true
      ∧ (fetch_page_loop IS_CI date page env (attempt :: later)).2
        = request ++ Sleep wait :: (fetch_page_loop IS_CI date page env later).2
      ∧ (wait = rate_limit_delay IS_CI attempt (env attempt)
         ∨ IS_CI = true ∧ wait = uniform 15 30 (client_error_draw (env attempt))
         ∨ wait = error_delay IS_CI).
Proof.
  cbn zeta. cbn [fetch_page_loop].
  destruct (fetch_page_loop IS_CI date page env later) as [r t].
  destruct (attempt <? MAX_RETRIES IS_CI - 1)%nat eqn:Hleft.
  - destruct (answer (env attempt)) as [status [body|]| |];
      repeat case_match; cbn [snd];
      first
        [ by left
        | right; eexists; split; [done|]; split; [reflexivity|];
          first
            [ by left
            | by right; right
            | right; left; split; [by destruct IS_CI | done] ] ].
  - destruct (answer (env attempt)) as [status [body|]| |];
      repeat case_match; cbn [snd]; try (by left);
      match goal with H : _ && false = true |- _ =>
        by rewrite andb_false_r in H
      end.
Qed.

Lemma pacing_delay_bounds (IS_CI : bool) attempt e :
  unit_draws e →
  ((if IS_CI then 5 else 1 # 2 : Q) <= pacing_delay IS_CI attempt e)%Q
  ∧ (pacing_delay IS_CI attempt e <= (if IS_CI then 32 else 3 # 2 : Q))%Q.
Proof.
  intros (Hp & Hr & _ & _). unfold pacing_delay. destruct IS_CI.
  - uniform_range 5%Q 12%Q Hp. uniform_range 10%Q 20%Q Hr.
    destruct (0 <? attempt)%nat; [|split; lra]. split.
    + apply (Qle_trans _ (fl 5)); [vm_compute; discriminate|].
      apply fl_mono; lra.
    + apply (Qle_trans _ (fl 32)); [|vm_compute; discriminate].
      apply fl_mono; lra.
  - uniform_range (1 # 2)%Q (3 # 2)%Q Hp. split; lra.
Qed.

Lemma retry_wait_bounds (IS_CI : bool) attempt e wait :
  unit_draws e →
  wait = rate_limit_delay IS_CI attempt e
  ∨ IS_CI = true ∧ wait = uniform 15 30 (client_error_draw e)
  ∨ wait = error_delay IS_CI →
  (5 <= wait)%Q ∧ (wait <= (if IS_CI then 120 else 30 : Q))%Q.
Proof.
  intros (_ & _ & Hb & Hc) [-> | [[-> ->] | ->]].
  - destruct (rate_limit_delay_bounds IS_CI attempt e Hb).
    destruct IS_CI; split; lra.
  - uniform_range 15%Q 30%Q Hc. split; lra.
  - destruct IS_CI; vm_compute; split; discriminate.
Qed.

(** No sleep of a fetch is negative. *)
Lemma fetch_page_loop_sleep_nonneg IS_CI date page env attempts :
  (∀ attempt, unit_draws (env attempt)) →
  (0 <= total_sleep (fetch_page_loop IS_CI date page env attempts).2)%Q.
Proof.
  intros Hdraws. induction attempts as [|a later IH].
  - cbn. lra.
  - destruct (pacing_delay_bounds IS_CI a (env a) (Hdraws a)) as [Hp0 _].
    destruct (fetch_page_loop_turn IS_CI date page env a later)
      as [-> | (wait & _ & -> & Hwait)].
    + cbn [total_sleep]. destruct IS_CI; lra.
    + destruct (retry_wait_bounds IS_CI a (env a) wait (Hdraws a) Hwait)
        as [Hw _].
      cbn [total_sleep app]. destruct IS_CI; lra.
Qed.

Lemma Qnat_succ n :
  (inject_Z (Z.of_nat (S n)) == inject_Z (Z.of_nat n) + 1)%Q.
Proof. by rewrite Nat2Z.inj_succ, <- Z.add_1_r, inject_Z_plus. Qed.

(** [k] attempts left: at most [k] pacing sleeps and [k - 1] retry sleeps. *)
Lemma fetch_page_loop_sleep IS_CI date page env k :
  (∀ attempt, unit_draws (env attempt)) →
  ∀ a, a + k = MAX_RETRIES IS_CI →
  (total_sleep (fetch_page_loop IS_CI date page env (seq a k)).2
   <= inject_Z (Z.of_nat k) * (if IS_CI then 32 else 3 # 2 : Q)
      + inject_Z (Z.of_nat (k - 1)) * (if IS_CI then 120 else 30 : Q))%Q.
Proof.
  intros Hdraws. induction k as [|k IH]; intros a Ha.
  - vm_compute. discriminate.
  - cbn [seq].
    destruct (pacing_delay_bounds IS_CI a (env a) (Hdraws a)) as [Hp0 Hp].
    assert (0 <= inject_Z (Z.of_nat k))%Q as Hk
      by (change 0%Q with (inject_Z 0); rewrite <- Zle_Qle; lia).
    destruct (fetch_page_loop_turn IS_CI date page env a (seq (S a) k))
      as [-> | (wait & Hleft & -> & Hwait)].
    + cbn [total_sleep]. rewrite Qnat_succ.
      replace (S k - 1) with k by lia.
      destruct IS_CI; nra.
    + apply Nat.ltb_lt in Hleft.
      destruct k as [|k]; [lia|].
      pose proof (IH (S a) ltac:(lia)) as Hrest.
      destruct (retry_wait_bounds IS_CI a (env a) wait (Hdraws a) Hwait)
        as [_ Hw].
      cbn [total_sleep app]. revert Hrest.
      replace (S k - 1) with k by lia.
      replace (S (S k) - 1) with (S k) by lia.
      rewrite (Qnat_succ (S k)).
      pose proof (Qnat_succ k) as Hs. revert Hs Hk.
      generalize (total_sleep
                    (fetch_page_loop IS_CI date page env (seq (S a) (S k))).2).
      generalize (inject_Z (Z.of_nat (S k))).
      generalize (inject_Z (Z.of_nat k)).
      intros. destruct IS_CI; nra.
Qed.

(** X8.  Whatever the network answers, the time one call of [fetch_page]
    spends asleep (pacing delays and retry delays together) is at least the
    shortest pacing delay (5 s in CI, 0.5 s locally) and at most 336 s in CI
    (3 pacing delays of at most 32 s and 2 retry delays of at most 120 s) and
    127.5 s locally (5 and 4, of at most 1.5 s and 30 s). *)
Theorem fetch_page_sleep_bound (IS_CI : bool) date page env :
  (∀ attempt, unit_draws (env attempt)) →
  ((if IS_CI then 5 else 1 # 2 : Q)
   <= total_sleep (fetch_page IS_CI date page env).2)%Q
  ∧ (total_sleep (fetch_page IS_CI date page env).2
     <= (if IS_CI then 336 else 255 # 2 : Q))%Q.
Proof.
  intros Hdraws. split.
  - unfold fetch_page.
    assert (∃ k, MAX_RETRIES IS_CI = S k) as [k ->] by (destruct IS_CI; eauto).
    cbn [seq].
    destruct (pacing_delay_bounds IS_CI 0 (env 0) (Hdraws 0)) as [Hp0 _].
    pose proof (fetch_page_loop_sleep_nonneg IS_CI date page env (seq 1 k)
                  Hdraws) as Hrest.
    destruct (fetch_page_loop_turn IS_CI date page env 0 (seq 1 k))
      as [-> | (wait & _ & -> & Hwait)].
    + cbn [total_sleep]. lra.
    + destruct (retry_wait_bounds IS_CI 0 (env 0) wait (Hdraws 0) Hwait)
        as [Hw _].
      cbn [total_sleep app]. lra.
  - pose proof (fetch_page_loop_sleep IS_CI date page env
                  (MAX_RETRIES IS_CI) Hdraws 0 ltac:(lia)) as Hbound.
    unfold fetch_page.
    destruct IS_CI; cbn [MAX_RETRIES] in Hbound |- *;
      eapply Qle_trans; [exact Hbound | vm_compute; discriminate
                        | exact Hbound | vm_compute; discriminate].
Qed.

Lemma fetch_page_sleep_bound_witness :
  (∀ attempt, unit_draws (always Timeout attempt))
  ∧ (5 <= total_sleep (fetch_page true (u "2025-07-30") 1 (always Timeout)).2)%Q
  ∧ (total_sleep (fetch_page true (u "2025-07-30") 1 (always Timeout)).2
     <= 336)%Q.
Proof.
  assert (∀ attempt, unit_draws (always Timeout attempt)) as Hdraws.
  { intros attempt. repeat split; vm_compute; congruence. }
  split; [exact Hdraws|].
  exact (fetch_page_sleep_bound true (u "2025-07-30") 1 (always Timeout) Hdraws).
Defined.

(** ** What the coordinator asks of the network *)

(** Whatever [gather] has logged was logged by one of its tasks. *)
Lemma gather_fold_log {A B L} (run : A → result B * list L) tasks order st x :
  x ∈ (foldl (gather_step run tasks) st order).2 →
  x ∈ st.2 ∨ ∃ i t, i ∈ order ∧ tasks !! i = Some t ∧ x ∈ (run t).2.
Proof.
  revert st. induction order as [|i order IH]; intros st; simpl; [by left|].
  intros [Hx|(j & t & Hj & Ht & Hx)]%IH.
  - unfold gather_step in Hx. destruct st as [[slots|e] log]; simpl in *;
      [|by left].
    destruct (tasks !! i) as [t|] eqn:Ht; [|by left].
    destruct (run t) as [r l] eqn:Hr. simpl in Hx.
    apply elem_of_app in Hx as [?|?]; [by left|right].
    exists i, t. rewrite Hr. split; [by left|done].
  - right. exists j, t. split; [by right|done].
Qed.

Lemma gather_log {A B L} (run : A → result B * list L) tasks order x :
  x ∈ (gather run tasks order).2 →
  ∃ i t, i ∈ order ∧ tasks !! i = Some t ∧ x ∈ (run t).2.
Proof.
  unfold gather. intros Hx.
  destruct (gather_fold_log run tasks order
              (Ok (replicate (length tasks) None), []) x)
    as [Hnil|Htask]; [|by apply elem_of_nil in Hnil|done].
  by destruct (foldl _ _ order).
Qed.

Lemma requests_app t1 t2 : requests (t1 ++ t2) = requests t1 ++ requests t2.
Proof. apply filter_app. Qed.

(** Each completion adds the requests of one task at most. *)
Lemma gather_fold_requests {A B} (run : A → result B * list action) tasks n
    order st :
  (∀ t, length (requests (run t).2) ≤ n) →
  length (requests (foldl (gather_step run tasks) st order).2)
  ≤ length (requests st.2) + n * length order.
Proof.
  intros Hrun. revert st.
  induction order as [|i order IH]; intros st; simpl; [lia|].
  etrans; [apply IH|].
  assert (length (requests (gather_step run tasks st i).2)
          ≤ length (requests st.2) + n); [|lia].
  unfold gather_step. destruct st as [[slots|e] log]; simpl; [|lia].
  destruct (tasks !! i) as [t|]; [|simpl; lia].
  pose proof (Hrun t). destruct (run t) as [r l]. simpl in *.
  rewrite requests_app, length_app. lia.
Qed.

Lemma gather_requests {A B} (run : A → result B * list action) tasks n order :
  (∀ t, length (requests (run t).2) ≤ n) →
  length (requests (gather run tasks order).2) ≤ n * length order.
Proof.
  intros Hrun. unfold gather.
  pose proof (gather_fold_requests run tasks n order
                (Ok (replicate (length tasks) None), []) Hrun) as Hfold.
  destruct (foldl _ _ order). simpl in *. lia.
Qed.

(** The pages [range(2, last_page + 1)] runs over. *)
Lemma remaining_pages_range v all_events pages :
  remaining_pages v = Ok (all_events, pages) →
  pages = []
  ∨ ∃ d1 meta last_page,
      v = PDict d1
      ∧ default (PDict []) (dict_lookup (u "meta") d1) = PDict meta
      ∧ default (PInt 1) (dict_lookup (u "last_page") meta) = PInt last_page
      ∧ (1 < last_page)%Z
      ∧ pages = seqZ 2 (last_page - 1).
Proof.
  unfold remaining_pages. destruct v as [|b|n|f|s|l|d1]; try done.
  cbn [py_get mbind result_bind].
  destruct (py_extend [] _) as [events|]; [|done]. cbn [mbind result_bind].
  destruct (default (PDict []) (dict_lookup (u "meta") d1))
    as [|b|n|f|s|l|meta] eqn:Hmeta; try done.
  cbn [py_get mbind result_bind].
  destruct (default (PInt 1) (dict_lookup (u "last_page") meta))
    as [|b|n|f|s|l|m] eqn:Hlast; try done; cbn [py_gt_one mbind result_bind].
  - destruct b; cbn; intros [= <- <-]; by left.
  - destruct (1 <? n)%Z eqn:Hmore.
    + cbn. intros [= <- <-]. right. exists d1, meta, n.
      repeat (split; [done|]). split; [lia|]. f_equal. lia.
    + intros [= <- <-]. by left.
  - destruct (PrimFloat.ltb 1 f); cbn; [done|]. intros [= <- <-]. by left.
Qed.

(** X9.  Every request the coordinator of a date sends is for that date, and
    for page 1 or for a page between 2 and the [last_page] that page 1
    announced, an integer greater than 1: no page beyond the last, no page of
    another date, and none but page 1 unless page 1 arrived. *)
Theorem coordinator_requests_its_pages IS_CI net date order d p :
  Get d p ∈ (fetch_all_pages_for_date IS_CI net date order).2 →
  d = date
  ∧ (p = 1%Z
     ∨ ∃ d1 meta last_page,
         (fetch_page IS_CI date 1 (net 1%Z)).1 = PDict d1
         ∧ default (PDict []) (dict_lookup (u "meta") d1) = PDict meta
         ∧ default (PInt 1) (dict_lookup (u "last_page") meta) = PInt last_page
         ∧ (2 ≤ p ≤ last_page)%Z).
Proof.
  unfold fetch_all_pages_for_date.
  pose proof (fetch_page_loop_requests IS_CI date 1 (net 1%Z)
                (seq 0 (MAX_RETRIES IS_CI)) d p) as Hfirst.
  fold (fetch_page IS_CI date 1 (net 1%Z)) in Hfirst.
  destruct (fetch_page IS_CI date 1 (net 1%Z)) as [first log1].
  cbn [fst snd] in *.
  destruct (negb (truthy first)); cbn [snd].
  { intros [-> ->]%Hfirst. split; [done|by left]. }
  destruct (remaining_pages first) as [[all_events pages]|e] eqn:Hpages;
    cbn [snd]; [|intros [-> ->]%Hfirst; split; [done|by left]].
  destruct (gather _ pages order) as [results log2] eqn:Hgather. cbn [snd].
  intros [Hin|Hin]%elem_of_app; [apply Hfirst in Hin as [-> ->]; eauto|].
  assert (log2 = (gather (λ p0, let '(r, t) := fetch_page IS_CI date p0 (net p0)
                                in (Ok r, t)) pages order).2) as ->
    by (by rewrite Hgather).
  apply gather_log in Hin as (i & q & _ & Hq & Hin).
  pose proof (fetch_page_loop_requests IS_CI date q (net q)
                (seq 0 (MAX_RETRIES IS_CI)) d p) as Hlater.
  fold (fetch_page IS_CI date q (net q)) in Hlater.
  destruct (fetch_page IS_CI date q (net q)) as [r t]. cbn [snd] in *.
  apply Hlater in Hin as [-> ->]. split; [done|right].
  apply list_elem_of_lookup_2 in Hq.
  destruct (remaining_pages_range _ _ _ Hpages)
    as [->|(d1 & meta & last_page & -> & Hmeta & Hlast & Hmore & ->)];
    [by apply elem_of_nil in Hq|].
  exists d1, meta, last_page. repeat (split; [done|]).
  apply elem_of_seqZ in Hq. lia.
Qed.

Lemma coordinator_requests_its_pages_witness :
  Get (u "2025-07-31") 3
    ∈ (fetch_all_pages_for_date true three_pages (u "2025-07-31") [1; 0]).2
  ∧ u "2025-07-31" = u "2025-07-31"
  ∧ (3%Z = 1%Z
     ∨ ∃ d1 meta last_page,
         (fetch_page true (u "2025-07-31") 1 (three_pages 1%Z)).1 = PDict d1
         ∧ default (PDict []) (dict_lookup (u "meta") d1) = PDict meta
         ∧ default (PInt 1) (dict_lookup (u "last_page") meta) = PInt last_page
         ∧ (2 ≤ 3 ≤ last_page)%Z).
Proof.
  assert (Get (u "2025-07-31") 3
            ∈ (fetch_all_pages_for_date true three_pages (u "2025-07-31")
                 [1; 0]).2) as Hin
    by (vm_compute; repeat constructor).
  split; [exact Hin|].
  exact (coordinator_requests_its_pages true three_pages (u "2025-07-31")
           [1; 0] (u "2025-07-31") 3 Hin).
Defined.

Lemma fetch_page_budget IS_CI date page env :
  length (requests (fetch_page IS_CI date page env).2) ≤ MAX_RETRIES IS_CI.
Proof.
  unfold fetch_page. etrans; [apply fetch_page_loop_budget|].
  by rewrite length_seq.
Qed.

(** One fetch for page 1 and one for each completion of a later page. *)
Lemma coordinator_budget IS_CI net date order :
  length (requests (fetch_all_pages_for_date IS_CI net date order).2)
  ≤ MAX_RETRIES IS_CI * (1 + length order).
Proof.
  unfold fetch_all_pages_for_date.
  pose proof (fetch_page_budget IS_CI date 1 (net 1%Z)) as Hfirst.
  destruct (fetch_page IS_CI date 1 (net 1%Z)) as [first log1].
  cbn [snd] in Hfirst.
  destruct (negb (truthy first)); cbn [snd]; [lia|].
  destruct (remaining_pages first) as [[all_events pages]|e]; cbn [snd];
    [|lia].
  pose proof (gather_requests
                (λ p, let '(r, t) := fetch_page IS_CI date p (net p)
                      in (Ok r, t))
                pages (MAX_RETRIES IS_CI) order) as Hlater.
  destruct (gather _ pages order) as [results log2]. cbn [snd] in *.
  rewrite requests_app, length_app.
  assert (length (requests log2) ≤ MAX_RETRIES IS_CI * length order); [|lia].
  apply Hlater. intros q.
  pose proof (fetch_page_budget IS_CI date q (net q)).
  by destruct (fetch_page IS_CI date q (net q)).
Qed.

(** X10.  A date whose page 1 announces [last_page] pages costs at most
    [MAX_RETRIES] requests per page, [MAX_RETRIES * last_page] in all
    ([MAX_RETRIES] when [last_page] is below 1). *)
Theorem coordinator_request_budget IS_CI net date order d1 meta last_page :
  (fetch_page IS_CI date 1 (net 1%Z)).1 = PDict d1 →
  default (PDict []) (dict_lookup (u "meta") d1) = PDict meta →
  default (PInt 1) (dict_lookup (u "last_page") meta) = PInt last_page →
  order ≡ₚ seq 0 (Z.to_nat (last_page - 1)) →
  length (requests (fetch_all_pages_for_date IS_CI net date order).2)
  ≤ MAX_RETRIES IS_CI * Z.to_nat (Z.max 1 last_page).
Proof.
  intros _ _ _ Horder. etrans; [apply coordinator_budget|].
  apply Permutation_length in Horder. rewrite length_seq in Horder.
  apply Nat.mul_le_mono_l. lia.
Qed.

Lemma coordinator_request_budget_witness :
  length (requests
            (fetch_all_pages_for_date true three_pages (u "2025-07-31")
               [1; 0]).2)
  ≤ MAX_RETRIES true * Z.to_nat (Z.max 1 3).
Proof.
  apply (coordinator_request_budget true three_pages (u "2025-07-31") [1; 0]
           [ (u "data", PList (replicate 4 sample_event));
             (u "meta", PDict [ (u "last_page", PInt 3) ]) ]
           [ (u "last_page", PInt 3) ] 3).
  - vm_compute. reflexivity.
  - vm_compute. reflexivity.
  - vm_compute. reflexivity.
  - apply (Permutation_swap 0 1 []).
Defined.

(** ** A page that is not an object *)





(** ** The summary and the files of a run *)

Lemma process_events_length cache events events' cache' :
  process_events cache events = Ok (events', cache') →
  length events' = length events.
Proof.
  revert cache events' cache'.
  induction events as [|event later IH]; intros cache events' cache'.
  - by intros [= <- <-].
  - cbn [process_events].
    destruct (py_get event _ _) as [place|]; [|done]. cbn [mbind result_bind].
    destruct (normalize_and_locate cache place) as [[loc cache1]|]; [|done].
    cbn [mbind result_bind].
    destruct (py_setitem event _ _) as [event1|]; [|done].
    cbn [mbind result_bind].
    destruct (py_setitem event1 _ _) as [event2|]; [|done].
    cbn [mbind result_bind].
    destruct (process_events cache1 later) as [[later' cache2]|] eqn:Hlater;
      [|done].
    cbn [mbind result_bind]. intros [= <- <-]. cbn [length].
    f_equal. by eapply IH.
Qed.

(** The loop of [main] over the dates, when nothing raises: the counters, the
    failed dates and the files, in the order of the dates. *)
Lemma process_results_tally clk items t t' :
  process_results clk items t = Ok t' →
  successful_dates t'
  = (successful_dates t
     + Z.of_nat (length (filter (λ item, date_succeeded item.2 = true) items)))%Z
  ∧ total_events t'
    = (total_events t
       + Z.of_nat (sum_list (length <$> (filter (λ item, date_succeeded item.2 = true)
                                          items).*2)))%Z
  ∧ failed_dates t'
    = failed_dates t
      ++ dict_keys (filter (λ item, date_succeeded item.2 = false) items)
  ∧ ∃ new,
      files t' = files t ++ new
      ∧ Forall2 (file_of clk) new
          (filter (λ item, date_succeeded item.2 = true) items).
Proof.
  revert t. induction items as [|[date events] later IH]; intros t.
  - intros [= <-]. rewrite !filter_nil. cbn. rewrite app_nil_r.
    repeat split; try lia. exists []. by rewrite app_nil_r.
  - cbn [process_results].
    destruct (truthy (PList events)) eqn:Hsome.
    + unfold save_events_to_file.
      destruct (process_events (cache_of t) events)
        as [[processed cache']|] eqn:Hprocessed; [|done].
      cbn [mbind result_bind]. destruct (encodable _); [|done].
      cbn [mbind result_bind]. intros Hrun.
      apply IH in Hrun as (Hcount & Htotal & Hfailed & new & Hfiles & Hnew).
      cbn [total_events successful_dates failed_dates files] in *.
      rewrite !filter_cons_True by done.
      rewrite filter_cons_False by (cbn [snd]; unfold date_succeeded; congruence).
      rewrite Hcount, Htotal, Hfailed, !fmap_cons.
      cbn [length sum_list_with snd]. unfold id.
      repeat split; try lia.
      eexists (_ :: new). rewrite Hfiles, <- app_assoc. split; [done|].
      constructor; [|done]. exists processed. split; [|done].
      by eapply process_events_length.
    + intros Hrun.
      apply IH in Hrun as (Hcount & Htotal & Hfailed & new & Hfiles & Hnew).
      cbn [total_events successful_dates failed_dates files] in *.
      rewrite !filter_cons_False
        by (cbn [snd]; unfold date_succeeded; congruence).
      rewrite filter_cons_True by done.
      rewrite Hcount, Htotal, Hfailed. unfold dict_keys. rewrite fmap_cons.
      cbn [fst]. rewrite <- app_assoc.
      repeat split; try lia. by exists new.
Qed.

(** X12.  A run in which no date has events while [summary.json] holds JSON
    that is not an object (an array, a number, [null]): loading it is
    survived, but the failure branch calls [existing_summary.get] and [main]
    ends with [AttributeError], outside any [try]. *)
Theorem failed_run_needs_an_object_summary IS_CI net sched clk loaded
    all_events :
  (fetch_all_dates IS_CI net sched EVENT_DATES).1 = Ok all_events →
  Forall (λ item, date_succeeded item.2 = false) all_events →
  (∀ d, loaded ≠ PDict d) →
  main IS_CI net sched clk (Some (Some loaded)) = Raise AttributeError.
Proof.
  intros Hfetch Hfailed Hshape. unfold main.
  rewrite Hfetch. cbn [mbind result_bind load_existing_summary].
  rewrite (process_results_all_failed clk all_events no_results Hfailed).
  cbn [mbind result_bind]. unfold summary_data.
  cbn [successful_dates no_results Z.ltb Z.compare].
  destruct loaded as [|b|n|f|s|l|d]; try done. by destruct (Hshape d).
Qed.

Lemma failed_run_needs_an_object_summary_witness :
  main true dead_network sample_schedule sample_clock (Some (Some (PList [])))
  = Raise AttributeError.
Proof.
  apply (failed_run_needs_an_object_summary true dead_network sample_schedule
           sample_clock (PList []) ((λ date, (date, [])) <$> EVENT_DATES)).
  - vm_compute. reflexivity.
  - repeat constructor.
  - discriminate.
Defined.

(** X13.  A run in which some date has events never looks at the summary
    found at start-up: whatever [summary.json] held, or whether it existed,
    [main] writes the same files and the same summary (or raises the same
    exception). *)
Theorem successful_run_ignores_prior_summary IS_CI net sched clk all_events
    summary_file1 summary_file2 :
  (fetch_all_dates IS_CI net sched EVENT_DATES).1 = Ok all_events →
  Exists (λ item, date_succeeded item.2 = true) all_events →
  main IS_CI net sched clk summary_file1 = main IS_CI net sched clk summary_file2.
Proof.
  intros Hfetch Hsome. unfold main. rewrite Hfetch.
  cbn [mbind result_bind].
  destruct (process_results clk all_events no_results) as [t|e] eqn:Hrun;
    [|done].
  cbn [mbind result_bind].
  destruct (process_results_tally _ _ _ _ Hrun) as (Hcount & _).
  pose proof (filter_succeeded_nonempty all_events Hsome) as Hpos.
  cbn [successful_dates no_results] in Hcount.
  unfold summary_data.
  assert ((0 <? successful_dates t)%Z = true) as -> by lia.
  reflexivity.
Qed.

Lemma successful_run_ignores_prior_summary_witness :
  main false one_date_network sample_schedule sample_clock None
  = main false one_date_network sample_schedule sample_clock
      (Some (Some (PList []))).
Proof.
  apply (successful_run_ignores_prior_summary false one_date_network
           sample_schedule sample_clock
           (zip EVENT_DATES [ []; replicate 16 sample_event; []; []; [] ])).
  - vm_compute. reflexivity.
  - apply Exists_cons_tl, Exists_cons_hd. reflexivity.
Defined.

Lemma filter_not_in_cons (k : pystr) (failed l : list pystr) :
  k ∉ l → filter (λ x, x ∉ k :: failed) l = filter (λ x, x ∉ failed) l.
Proof.
  induction l as [|x l IH]; intros Hk; [done|].
  apply not_elem_of_cons in Hk as [Hne Hk].
  rewrite !filter_cons, IH by done.
  destruct (decide (x ∉ k :: failed)) as [Hx|Hx],
           (decide (x ∉ failed)) as [Hx'|Hx']; try done; exfalso.
  - apply Hx. right. by apply dec_stable.
  - apply Hx. intros [->|?]%elem_of_cons; done.
Qed.

(** The dates that are not among the failed ones are those that succeeded. *)
Lemma filter_not_failed (items : list (pystr * list pyval)) :
  NoDup items.*1 →
  filter (λ date, date ∉ (filter (λ item, date_succeeded item.2 = false) items).*1)
         items.*1
  = (filter (λ item, date_succeeded item.2 = true) items).*1.
Proof.
  induction items as [|[date events] later IH]; [done|].
  rewrite fmap_cons. cbn [fst]. intros [Hfresh Hnodup]%NoDup_cons.
  destruct (date_succeeded events) eqn:Hsome.
  - rewrite (filter_cons_False (λ item, date_succeeded item.2 = false))
      by (cbn [snd]; congruence).
    rewrite (filter_cons_True (λ item, date_succeeded item.2 = true)) by done.
    rewrite filter_cons_True, fmap_cons, IH; [done|done|].
    intros Hin. apply Hfresh.
    apply list_elem_of_fmap in Hin as ([d e] & -> & Hin).
    apply list_elem_of_filter in Hin as [_ Hin].
    apply list_elem_of_fmap. by exists (d, e).
  - rewrite (filter_cons_True (λ item, date_succeeded item.2 = false)) by done.
    rewrite (filter_cons_False (λ item, date_succeeded item.2 = true))
      by (cbn [snd]; congruence).
    rewrite fmap_cons. cbn [fst].
    rewrite filter_cons_False by (intros Hout; apply Hout; by left).
    rewrite filter_not_in_cons by done. by apply IH.
Qed.

Lemma file_of_names clk new items :
  Forall2 (file_of clk) new items →
  new.*1 = (λ item, u "events/" ++ events_file item.1) <$> items
  ∧ foldr Z.add 0%Z (file_total <$> new)
    = Z.of_nat (sum_list (length <$> items.*2)).
Proof.
  induction 1 as [|file item new items (processed & Hlen & ->) _ [IH1 IH2]];
    [done|].
  rewrite !fmap_cons. cbn [fst foldr sum_list_with]. rewrite IH1, IH2.
  split; [done|].
  unfold file_total. cbn [snd]. dict_lookup_key. unfold id. lia.
Qed.

(** X15.  After a run in which some date has events, the summary agrees with
    the files written: [files_created] lists, in order, the names of the
    files written to [events/]; [successful_dates] is their number; and
    [total_events] is the sum of the [total_events] the files declare. *)
Theorem summary_agrees_with_files IS_CI net sched clk summary_file all_events
    summary written :
  (fetch_all_dates IS_CI net sched EVENT_DATES).1 = Ok all_events →
  Exists (λ item, date_succeeded item.2 = true) all_events →
  main IS_CI net sched clk summary_file = Ok (summary, written) →
  ∃ d names,
    summary = PDict d
    ∧ dict_lookup (u "files_created") d = Some (PList (PStr <$> names))
    ∧ written.*1 = (λ name, u "events/" ++ name) <$> names
    ∧ dict_lookup (u "successful_dates") d
      = Some (PInt (Z.of_nat (length written)))
    ∧ dict_lookup (u "total_events") d
      = Some (PInt (foldr Z.add 0%Z (file_total <$> written))).
Proof.
  intros Hfetch Hsome. unfold main. rewrite Hfetch. cbn [mbind result_bind].
  pose proof (fetch_all_dates_keys _ _ _ _ _ EVENT_DATES_NoDup Hfetch) as Hkeys.
  destruct (process_results clk all_events no_results) as [t|e] eqn:Hrun;
    [|done].
  cbn [mbind result_bind].
  destruct (process_results_tally _ _ _ _ Hrun)
    as (Hcount & Htotal & Hfailed & new & Hfiles & Hnew).
  pose proof (filter_succeeded_nonempty all_events Hsome) as Hpos.
  cbn [successful_dates total_events failed_dates files no_results app]
    in Hcount, Htotal, Hfailed, Hfiles.
  unfold summary_data.
  assert ((0 <? successful_dates t)%Z = true) as -> by lia.
  cbn [mbind result_bind]. intros [= <- <-].
  destruct (file_of_names clk new _ Hnew) as [Hnames Hsum].
  pose proof (Forall2_length _ _ _ Hnew) as Hlen.
  eexists _, (events_file <$> filter (λ date, date ∉ failed_dates t) EVENT_DATES).
  split; [done|]. repeat split; dict_lookup_key.
  - by rewrite <- !list_fmap_compose.
  - unfold dict_keys in *. rewrite Hfiles, Hnames, Hfailed, <- Hkeys.
    rewrite filter_not_failed
      by (rewrite Hkeys; apply EVENT_DATES_NoDup).
    by rewrite <- !list_fmap_compose.
  - rewrite Hfiles, Hlen, Hcount. do 2 f_equal; lia.
  - rewrite Hfiles, Hsum, Htotal. do 2 f_equal; lia.
Qed.

Lemma summary_agrees_with_files_witness :
  ∃ summary written,
    main false one_date_network sample_schedule sample_clock None
    = Ok (summary, written)
    ∧ ∃ d names,
        summary = PDict d
        ∧ dict_lookup (u "files_created") d = Some (PList (PStr <$> names))
        ∧ written.*1 = (λ name, u "events/" ++ name) <$> names
        ∧ dict_lookup (u "successful_dates") d
          = Some (PInt (Z.of_nat (length written)))
        ∧ dict_lookup (u "total_events") d
          = Some (PInt (foldr Z.add 0%Z (file_total <$> written))).
Proof.
  eexists _, _. split; [vm_compute; reflexivity|].
  apply (summary_agrees_with_files false one_date_network sample_schedule
           sample_clock None
           (zip EVENT_DATES [ []; replicate 16 sample_event; []; []; [] ])).
  - vm_compute. reflexivity.
  - apply Exists_cons_tl, Exists_cons_hd. reflexivity.
  - vm_compute. reflexivity.
Defined.

(** ** Run after run *)

(** The summary of a run in which no date has events, field by field. *)
Lemma failed_run_summary IS_CI net sched clk summary_file prior all_events n :
  (fetch_all_dates IS_CI net sched EVENT_DATES).1 = Ok all_events →
  Forall (λ item, date_succeeded item.2 = false) all_events →
  load_existing_summary summary_file = PDict prior →
  default (PInt 0) (dict_lookup (u "consecutive_failures") prior) = PInt n →
  main IS_CI net sched clk summary_file
  = Ok (PDict
          [ (u "scraping_completed",
               default (PStr (u "Never"))
                 (dict_lookup (u "scraping_completed") prior));
            (u "total_events",
               default (PInt 0) (dict_lookup (u "total_events") prior));
            (u "successful_dates",
               default (PInt 0) (dict_lookup (u "successful_dates") prior));
            (u "failed_dates", PList (PStr <$> EVENT_DATES));
            (u "dates_processed", PList (PStr <$> EVENT_DATES));
            (u "files_created",
               default (PList []) (dict_lookup (u "files_created") prior));
            (u "scraping_time_seconds", PFloat (scraping_time_seconds clk));
            (u "last_failed_attempt", PStr (brt_now clk));
            (u "consecutive_failures", PInt (n + 1)) ],
        []).
Proof.
  intros Hfetch Hfailed Hload Hcount.
  pose proof (fetch_all_dates_keys _ _ _ _ _ EVENT_DATES_NoDup Hfetch) as Hkeys.
  unfold main. rewrite Hfetch, Hload. cbn [mbind result_bind].
  rewrite (process_results_all_failed clk all_events no_results Hfailed).
  cbn [mbind result_bind]. unfold summary_data.
  cbn [successful_dates failed_dates files no_results Z.ltb Z.compare
         py_get mbind result_bind app].
  rewrite Hcount, Hkeys. cbn [py_succ mbind result_bind]. reflexivity.
Qed.

(** What [run_script] leaves is what [main] computes: the summary [main]
    returns is the one written, if the directory is there to take it. *)
Lemma run_script_main IS_CI net sched clk d summary written :
  main IS_CI net sched clk (summary_on d) = Ok (summary, written) →
  run_script IS_CI net sched clk d
  = write_summary
      {| events_dir := events_dir d || bool_decide (written ≠ []);
         summary_json := summary_on d |}
      summary.
Proof.
  unfold main, run_script.
  destruct (fetch_all_dates IS_CI net sched EVENT_DATES).1 as [all_events|];
    [|done].
  cbn [mbind result_bind].
  destruct (process_results clk all_events no_results) as [t|] eqn:Hrun;
    [|done].
  cbn [mbind result_bind].
  destruct (summary_data clk _ t) as [summary'|]; [|done].
  cbn [mbind result_bind]. intros [= <- <-].
  destruct (process_results_tally _ _ _ _ Hrun)
    as (Hcount & _ & _ & new & Hfiles & Hnew).
  apply Forall2_length in Hnew.
  cbn [successful_dates files no_results app] in Hcount, Hfiles.
  assert ((0 <? successful_dates t)%Z = bool_decide (files t ≠ [])) as ->;
    [|done].
  rewrite Hfiles, Hcount, <- Hnew.
  destruct new; [done|]. cbn [length].
  rewrite bool_decide_true by done. apply Z.ltb_lt. lia.
Qed.




(** X16.  Without the directory [events/], which only a run that has
    events to save creates, runs in which no date has events leave nothing
    behind: the write of the summary fails and is only logged, so no
    [summary.json] exists afterwards and no failure is counted. *)
Theorem failures_without_directory_leave_no_summary IS_CI envs d :
  Forall (λ '(net, sched, clk),
            ∃ all_events,
              (fetch_all_dates IS_CI net sched EVENT_DATES).1 = Ok all_events
              ∧ Forall (λ item, date_succeeded item.2 = false) all_events)
         envs →
  events_dir d = false →
  events_dir (runs IS_CI envs d) = false
  ∧ summary_on (runs IS_CI envs d) = None.
Proof.
  intros Hfail. revert d.
  induction Hfail as [|[[net sched] clk] envs (all_events & Hfetch & Hnone) _ IH];
    intros d Hdir.
  - split; [done|]. unfold summary_on. cbn [runs]. by rewrite Hdir.
  - cbn [runs]. apply IH.
    assert (summary_on d = None) as Hon by (unfold summary_on; by rewrite Hdir).
    pose proof (failed_run_summary IS_CI net sched clk (summary_on d) []
                  all_events 0 Hfetch Hnone) as Hmain.
    rewrite Hon in Hmain. specialize (Hmain eq_refl eq_refl).
    rewrite <- Hon in Hmain.
    rewrite (run_script_main _ _ _ _ _ _ _ Hmain).
    unfold write_summary. cbn [events_dir]. by rewrite Hdir.
Qed.

Lemma failures_without_directory_leave_no_summary_witness :
  events_dir
    (runs true [ (dead_network, sample_schedule, sample_clock);
                 (dead_network, sample_schedule, sample_clock) ]
       {| events_dir := false; summary_json := None |}) = false
  ∧ summary_on
      (runs true [ (dead_network, sample_schedule, sample_clock);
                   (dead_network, sample_schedule, sample_clock) ]
         {| events_dir := false; summary_json := None |}) = None.
Proof.
  apply (failures_without_directory_leave_no_summary true
           [ (dead_network, sample_schedule, sample_clock);
             (dead_network, sample_schedule, sample_clock) ]
           {| events_dir := false; summary_json := None |}).
  - repeat constructor;
      (exists ((λ date, (date, [])) <$> EVENT_DATES);
       split; [vm_compute; reflexivity | repeat constructor]).
  - reflexivity.
Defined.
